(** * Native-library synchronisation of simpleperf's app_profiler.py

    A shallow embedding of [HostElfEntry] and [NativeLibDownloader]
    (src/simpleperf/scripts/app_profiler.py): the host scanner
    ([collect_native_libs_on_host], [add_native_lib_on_host]), the reader of
    the device's [build_id_list] ([collect_native_libs_on_device]) and the
    sync engine ([sync_natives_libs_on_device]).

    Python values are embedded as follows.
    - [str] is [string]; a character is an [ascii] read as the code point
      0..255.
    - a [dict] is the list of its items in insertion order (the iteration
      order of a dict since Python 3.7); its keys are pairwise distinct
      ([dict_wf]), which every dict built from [{}] by item assignment
      satisfies.
    - [ReadElf] (utils.py) and [os.walk] are inputs: the three queries of
      [ReadElf] are functions of the path, and a directory tree is given by
      the sequence of triples that [os.walk] yields for it.
    - [adb] (utils.py, [AdbHelper]) is an external device: a transition
      function on an abstract world.  The script runs in a state and error
      monad that threads the world, the local file [build_id_list] and a
      ghost trace of what was done; [None] is the end of the script, by
      [log_exit] or by an exception that nothing catches.
    - a file holds bytes.  [open(name)] reads them as text: Python 2 hands
      them out as they are, Python 3 decodes them with the codec of the
      locale, an input of the model ([decode]), and raises
      UnicodeDecodeError where the codec has no text for the bytes.  The
      text that the script writes, build ids and names, is kept as it is
      written: it is taken to be text that the codec encodes. *)

From Stdlib Require Import String Ascii List Bool Arith ZArith Lia.
From Stdlib Require Import Decimal DecimalNat DecimalString.
Import ListNotations.
Local Open Scope string_scope.
Local Open Scope list_scope.

(* ===================================================================== *)
(** * Python strings                                                      *)
(* ===================================================================== *)

Module PyStr.

(** The two interpreters the script supports ([from __future__ import
    print_function]); they differ in what [str.strip] removes and in the
    newline translation of text files. *)
Inductive python := Py2 | Py3.

Definition LF : ascii := "010"%char.
Definition CR : ascii := "013"%char.
Definition EQ : ascii := "="%char.

(** [c.isspace()]: TAB..CR and space; Python 3 adds FS..US, NEL and NBSP. *)
Definition isspace (v : python) (c : ascii) : bool :=
  let n := nat_of_ascii c in
  (((9 <=? n) && (n <=? 13)) || (n =? 32) ||
   match v with
   | Py2 => false
   | Py3 => ((28 <=? n) && (n <=? 31)) || (n =? 133) || (n =? 160)
   end)%nat.

Fixpoint lstrip (v : python) (s : string) : string :=
  match s with
  | EmptyString => EmptyString
  | String c s' => if isspace v c then lstrip v s' else s
  end.

Fixpoint rstrip (v : python) (s : string) : string :=
  match s with
  | EmptyString => EmptyString
  | String c s' =>
      match rstrip v s' with
      | EmptyString => if isspace v c then EmptyString else String c EmptyString
      | r => String c r
      end
  end.

(** [s.strip()] *)
Definition strip (v : python) (s : string) : string := rstrip v (lstrip v s).

(** [s.split(sep)] for a one-character separator: every occurrence of
    [sep] cuts; the result is never empty. *)
Fixpoint split (sep : ascii) (s : string) : list string :=
  match s with
  | EmptyString => [EmptyString]
  | String c s' =>
      if Ascii.eqb c sep then EmptyString :: split sep s'
      else match split sep s' with
           | h :: t => String c h :: t
           | [] => [String c EmptyString]
           end
  end.

(** [s.endswith(suffix)]: some tail of [s] is [suffix]. *)
Fixpoint endswith (s suffix : string) : bool :=
  String.eqb s suffix ||
  match s with
  | EmptyString => false
  | String _ s' => endswith s' suffix
  end.

(** [str(n)] for a natural number. *)
Definition str_of_nat (n : nat) : string :=
  NilEmpty.string_of_uint (Nat.to_uint n).

(** Universal newlines of Python 3 text files: CR LF and a lone CR are
    read as LF. *)
Fixpoint translate_newlines (s : string) : string :=
  match s with
  | EmptyString => EmptyString
  | String c s' =>
      if Ascii.eqb c CR then
        match s' with
        | String c' s'' =>
            if Ascii.eqb c' LF then String LF (translate_newlines s'')
            else String LF (translate_newlines s')
        | EmptyString => String LF EmptyString
        end
      else String c (translate_newlines s')
  end.

(** Cut after every LF, keeping it; a last line without LF is kept. *)
Fixpoint cut_lines (s : string) : list string :=
  match s with
  | EmptyString => []
  | String c s' =>
      if Ascii.eqb c LF then String c EmptyString :: cut_lines s'
      else match cut_lines s' with
           | h :: t => String c h :: t
           | [] => [String c EmptyString]
           end
  end.

(** [fh.readlines()] of a file opened with [open(name)]. *)
Definition readlines (v : python) (content : string) : list string :=
  match v with
  | Py2 => cut_lines content
  | Py3 => cut_lines (translate_newlines content)
  end.

(** [c in s] for a character. *)
Fixpoint contains (c : ascii) (s : string) : bool :=
  match s with
  | EmptyString => false
  | String c' s' => Ascii.eqb c' c || contains c s'
  end.

Definition first_char (s : string) : option ascii :=
  match s with
  | EmptyString => None
  | String c _ => Some c
  end.

Fixpoint last_char (s : string) : option ascii :=
  match s with
  | EmptyString => None
  | String c EmptyString => Some c
  | String _ s' => last_char s'
  end.

(** [os.path.join(root, name)] on POSIX. *)
Definition os_path_join (root name : string) : string :=
  match first_char name with
  | Some "/"%char => name
  | _ =>
      match last_char root with
      | None => name
      | Some "/"%char => (root ++ name)%string
      | Some _ => (root ++ "/" ++ name)%string
      end
  end.

End PyStr.
Export PyStr.

(* ===================================================================== *)
(** * Python dicts with [str] keys                                        *)
(* ===================================================================== *)

Module Dict.

Definition dict (V : Type) : Type := list (string * V).

Definition keys {V} (d : dict V) : list string := map fst d.
Definition values {V} (d : dict V) : list V := map snd d.

(** [d.get(k)] *)
Fixpoint get {V} (k : string) (d : dict V) : option V :=
  match d with
  | [] => None
  | (k', v) :: d' => if String.eqb k k' then Some v else get k d'
  end.

(** [k in d] *)
Definition mem {V} (k : string) (d : dict V) : bool :=
  match get k d with Some _ => true | None => false end.

(** [d[k] = v]: a present key keeps its place, a new one goes last. *)
Fixpoint set {V} (k : string) (v : V) (d : dict V) : dict V :=
  match d with
  | [] => [(k, v)]
  | (k', v') :: d' =>
      if String.eqb k k' then (k', v) :: d' else (k', v') :: set k v d'
  end.

Definition dict_wf {V} (d : dict V) : Prop := NoDup (keys d).

End Dict.
Export Dict.

(* ===================================================================== *)
(** * The host scanner                                                    *)
(* ===================================================================== *)

Definition NATIVE_LIBS_DIR_ON_DEVICE : string := "/data/local/tmp/native_libs/".

(** [class HostElfEntry] *)
Record HostElfEntry := mkHostElfEntry {
  path : string;
  name : string;
  score : nat
}.

(** [ReadElf] of utils.py, by what [add_native_lib_on_host] asks of it. *)
Record ReadElf := mkReadElf {
  get_build_id : string -> string;
  get_arch : string -> string;
  get_sections : string -> list string
}.

(** The fields of [NativeLibDownloader] that change or are read by the
    three phases; [dir_on_device] and [build_id_list_file] are constants. *)
Record NativeLibDownloader := mkNativeLibDownloader {
  readelf : ReadElf;
  need_archs : list string;
  host_build_id_map : dict HostElfEntry;
  device_build_id_map : dict string;
  name_count_map : dict nat
}.

Definition dir_on_device : string := NATIVE_LIBS_DIR_ON_DEVICE.
Definition build_id_list_file : string := "build_id_list".

(** [self.dir_on_device + name] *)
Definition on_device (fname : string) : string := (dir_on_device ++ fname)%string.

Definition _get_need_archs (device_arch : string) : list string :=
  if String.eqb device_arch "arm64" then ["arm"; "arm64"]
  else if String.eqb device_arch "arm" then ["arm"]
  else if String.eqb device_arch "x86_64" then ["x86"; "x86_64"]
  else if String.eqb device_arch "x86" then ["x86"]
  else [].

(** [NativeLibDownloader.__init__] *)
Definition init (re : ReadElf) (device_arch : string) : NativeLibDownloader :=
  {| readelf := re;
     need_archs := _get_need_archs device_arch;
     host_build_id_map := [];
     device_build_id_map := [];
     name_count_map := [] |}.

(** [x in l] for a list of strings. *)
Definition str_in (x : string) (l : list string) : bool :=
  existsb (String.eqb x) l.

(** Lines 99-105: the score of a section list. *)
Definition compute_score (sections : list string) : nat :=
  if str_in ".debug_info" sections then 3
  else if str_in ".gnu_debugdata" sections then 2
  else if str_in ".symtab" sections then 1
  else 0.

(** Line 114. *)
Definition unique_name (fname : string) (repeat_count : nat) : string :=
  if (repeat_count =? 0)%nat then fname
  else (fname ++ "_" ++ str_of_nat repeat_count)%string.

Definition set_host_build_id_map (self : NativeLibDownloader)
    (m : dict HostElfEntry) : NativeLibDownloader :=
  {| readelf := readelf self;
     need_archs := need_archs self;
     host_build_id_map := m;
     device_build_id_map := device_build_id_map self;
     name_count_map := name_count_map self |}.

Definition set_device_build_id_map (self : NativeLibDownloader)
    (m : dict string) : NativeLibDownloader :=
  {| readelf := readelf self;
     need_archs := need_archs self;
     host_build_id_map := host_build_id_map self;
     device_build_id_map := m;
     name_count_map := name_count_map self |}.

Definition add_native_lib_on_host (self : NativeLibDownloader)
    (fpath fname : string) : NativeLibDownloader :=
  let build_id := get_build_id (readelf self) fpath in
  if String.eqb build_id "" then self
  else
    let arch := get_arch (readelf self) fpath in
    if negb (str_in arch (need_archs self)) then self
    else
      let sections := get_sections (readelf self) fpath in
      let new_score := compute_score sections in
      match Dict.get build_id (host_build_id_map self) with
      | Some entry =>
          if (score entry <? new_score)%nat
          then set_host_build_id_map self
                 (Dict.set build_id
                    {| path := fpath; name := name entry; score := new_score |}
                    (host_build_id_map self))
          else self
      | None =>
          let repeat_count :=
            match Dict.get fname (name_count_map self) with
            | Some c => c
            | None => 0
            end in
          {| readelf := readelf self;
             need_archs := need_archs self;
             host_build_id_map :=
               Dict.set build_id
                 {| path := fpath;
                    name := unique_name fname repeat_count;
                    score := new_score |}
                 (host_build_id_map self);
             device_build_id_map := device_build_id_map self;
             name_count_map :=
               Dict.set fname (repeat_count + 1) (name_count_map self) |}
      end.

(** What [os.walk] yields: [(root, dirs, files)] per directory. *)
Definition walk : Type := list (string * list string * list string).

(** The calls of [add_native_lib_on_host] that the two loops make, in
    order: [(os.path.join(root, name), name)] for the names ending in .so. *)
Definition candidates (w : walk) : list (string * string) :=
  flat_map
    (fun '(root, _, files) =>
       map (fun fname => (os_path_join root fname, fname))
           (filter (fun fname => endswith fname ".so") files))
    w.

Definition add_all (self : NativeLibDownloader)
    (l : list (string * string)) : NativeLibDownloader :=
  fold_left (fun s '(fpath, fname) => add_native_lib_on_host s fpath fname) l self.

Definition collect_native_libs_on_host (self : NativeLibDownloader)
    (w : walk) : NativeLibDownloader :=
  add_all (set_host_build_id_map self []) (candidates w).

(* ===================================================================== *)
(** * The script's effects                                                *)
(* ===================================================================== *)

(** What the script did, in order (a ghost trace): an adb invocation with
    its outcome, the closing of a file written with [open(file, 'w')], and
    [os.remove(file)]. *)
Inductive event :=
| EvAdb (args : list string) (ok : bool)
| EvWrite (file content : string)
| EvRemove (file : string).

(** What one adb invocation answers: whether it succeeded, and the content
    it left in the local file [build_id_list] when it fetched one (a pull). *)
Record adb_result := mkAdbResult {
  adb_ok : bool;
  adb_fetched : option string
}.

Section Script.

Variable World : Type.

(** The adb binary and the device behind it: from the arguments, the
    local [build_id_list] (if it exists) and the world, the answer and the
    next world. *)
Variable adb_exec :
  list string -> option string -> World -> adb_result * World.

Record state := mkState {
  world : World;
  list_file : option string;   (* ./build_id_list, when it exists *)
  trace : list event
}.

Definition M (A : Type) : Type := state -> option A * state.

Definition ret {A} (a : A) : M A := fun s => (Some a, s).

Definition bind {A B} (m : M A) (f : A -> M B) : M B :=
  fun s =>
    match m s with
    | (Some a, s') => f a s'
    | (None, s') => (None, s')
    end.

(** [log_exit] or an uncaught exception: the script stops. *)
Definition stop {A} : M A := fun s => (None, s).

(** Modelled from the spec: [AdbHelper.run] (utils.py, not in src/) runs
    one adb command and returns its success/failure signal; the failure is
    left to the caller. *)
Definition adb_run (args : list string) : M bool :=
  fun s =>
    let (r, w') := adb_exec args (list_file s) (world s) in
    (Some (adb_ok r),
     {| world := w';
        list_file := match adb_fetched r with
                     | Some c => Some c
                     | None => list_file s
                     end;
        trace := trace s ++ [EvAdb args (adb_ok r)] |}).

(** Modelled from the spec: [AdbHelper.check_run] (utils.py, not in src/)
    runs one adb command and, when it fails, aborts the script and
    surfaces the failure to the caller. *)
Definition adb_check_run (args : list string) : M unit :=
  bind (adb_run args) (fun ok => if ok then ret tt else stop).

(** [os.path.exists(self.build_id_list_file)] *)
Definition os_path_exists : M bool :=
  fun s => (Some (match list_file s with Some _ => true | None => false end), s).

(** [os.remove(self.build_id_list_file)]; raises when the file is absent. *)
Definition os_remove : M unit :=
  fun s =>
    match list_file s with
    | Some _ =>
        (Some tt,
         {| world := world s; list_file := None;
            trace := trace s ++ [EvRemove build_id_list_file] |})
    | None => (None, s)
    end.

(** [open(self.build_id_list_file, 'w')] truncates, [fh.write] appends and
    leaving the [with] block closes the file. *)
Definition open_w : M unit :=
  fun s => (Some tt, {| world := world s; list_file := Some ""; trace := trace s |}).

Definition fh_write (text : string) : M unit :=
  fun s =>
    match list_file s with
    | Some c => (Some tt, {| world := world s; list_file := Some (c ++ text)%string;
                             trace := trace s |})
    | None => (None, s)
    end.

Definition fh_close : M unit :=
  fun s =>
    match list_file s with
    | Some c => (Some tt, {| world := world s; list_file := Some c;
                             trace := trace s ++ [EvWrite build_id_list_file c] |})
    | None => (None, s)
    end.

(** The codec of the locale, which Python 3 decodes a text file with:
    [Some text] for the bytes it can decode, [None] where it raises
    UnicodeDecodeError. *)
Variable decode : string -> option string.

(** The text that [open(name)] and [fh.readlines()] make of the bytes of a
    file, before the lines are cut. *)
Definition text_of (v : python) (bytes : string) : option string :=
  match v with
  | Py2 => Some bytes
  | Py3 => decode bytes
  end.

(** [open(self.build_id_list_file)] and [fh.readlines()] read the whole
    file, before the loop over the lines starts; an absent file and bytes
    that cannot be decoded raise. *)
Definition fh_read (v : python) : M string :=
  fun s =>
    match list_file s with
    | Some bytes =>
        match text_of v bytes with
        | Some text => (Some text, s)
        | None => (None, s)
        end
    | None => (None, s)
    end.

Fixpoint for_each {A} (l : list A) (body : A -> M unit) : M unit :=
  match l with
  | [] => ret tt
  | x :: l' => bind (body x) (fun _ => for_each l' body)
  end.

Notation "x <- m ;; k" := (bind m (fun x => k))
  (at level 61, m at next level, right associativity).
Notation "m ;; k" := (bind m (fun _ => k))
  (at level 61, right associativity).

(* ------------------------------------------------------------------- *)
(** ** The remote registry reader                                       *)
(* ------------------------------------------------------------------- *)

(** Lines 126-129: one line of the list. *)
Definition read_line (v : python) (m : dict string) (line : string) : dict string :=
  let line := strip v line in
  let items := split EQ line in
  match items with
  | [item0; item1] => Dict.set item0 item1 m
  | _ => m
  end.

(** Lines 124-129: the loop over [fh.readlines()]. *)
Definition read_build_id_list (v : python) (content : string)
    (m : dict string) : dict string :=
  fold_left (read_line v) (readlines v content) m.

Definition collect_native_libs_on_device (v : python)
    (self : NativeLibDownloader) : M NativeLibDownloader :=
  let self := set_device_build_id_map self [] in
  adb_check_run ["shell"; "mkdir"; "-p"; dir_on_device] ;;
  present <- os_path_exists ;;
  (if present then os_remove else ret tt) ;;
  _ <- adb_run ["pull"; on_device build_id_list_file] ;;
  present <- os_path_exists ;;
  if present then
    content <- fh_read v ;;
    ret (set_device_build_id_map self (read_build_id_list v content []))
  else ret self.

(* ------------------------------------------------------------------- *)
(** ** The sync engine                                                  *)
(* ------------------------------------------------------------------- *)

Definition push_command (entry : HostElfEntry) : list string :=
  ["push"; path entry; on_device (name entry)].

Definition rm_command (stored : string) : list string :=
  ["shell"; "rm"; on_device stored].

Definition push_list_command : list string :=
  ["push"; build_id_list_file; on_device build_id_list_file].

(** ['%s=%s\n' % (build_id, name)] *)
Definition list_line (build_id stored : string) : string :=
  (build_id ++ "=" ++ stored ++ String LF EmptyString)%string.

Definition sync_natives_libs_on_device (self : NativeLibDownloader) : M unit :=
  let host := host_build_id_map self in
  let device := device_build_id_map self in
  (* Push missing native libs on device. *)
  for_each (keys host) (fun build_id =>
    if negb (mem build_id device) then
      match Dict.get build_id host with
      | Some entry => adb_check_run (push_command entry)
      | None => stop
      end
    else ret tt) ;;
  (* Remove native libs not exist on host. *)
  for_each (keys device) (fun build_id =>
    if negb (mem build_id host) then
      match Dict.get build_id device with
      | Some stored => _ <- adb_run (rm_command stored) ;; ret tt
      | None => stop
      end
    else ret tt) ;;
  (* Push new build_id_list on device. *)
  open_w ;;
  for_each (keys host) (fun build_id =>
    match Dict.get build_id host with
    | Some entry => fh_write (list_line build_id (name entry))
    | None => stop
    end) ;;
  fh_close ;;
  adb_check_run push_list_command ;;
  os_remove.

(** One run of a script from a state with an empty trace. *)
Definition run {A} (m : M A) (w : World) (f : option string) : option A * state :=
  m {| world := w; list_file := f; trace := [] |}.

End Script.

Arguments world {World} _.
Arguments list_file {World} _.
Arguments trace {World} _.
Arguments mkState {World} _ _ _.
Arguments ret {World A} _ _.
Arguments stop {World A} _.
Arguments bind {World A B} _ _ _.
Arguments for_each {World A} _ _ _.
Arguments os_remove {World} _.
Arguments os_path_exists {World} _.
Arguments open_w {World} _.
Arguments fh_write {World} _ _.
Arguments fh_close {World} _.
Arguments fh_read {World} _ _ _.
Arguments run {World A} _ _ _.
Arguments adb_run {World} _ _ _.
Arguments adb_check_run {World} _ _ _.
Arguments sync_natives_libs_on_device {World} _ _ _.
Arguments collect_native_libs_on_device {World} _ _ _ _ _.

(** Running a script on an unknown device: case analysis on what adb
    answers and on whether the local file exists. *)
Ltac run_through adb :=
  repeat (cbv beta iota zeta; cbn [world list_file trace app];
          match goal with
          | |- context [adb_ok ?x] => is_var x; destruct (adb_ok x)
          | |- context [adb_fetched ?x] => is_var x; destruct (adb_fetched x)
          | |- context [match ?x with Some _ => _ | None => _ end] =>
              is_var x; destruct x
          | |- context [adb ?a ?b ?c] => destruct (adb a b c) as [? ?]
          end).

(* ===================================================================== *)
(** * Vocabulary of the statements                                        *)
(* ===================================================================== *)

(** Lines 92-97: the file has a build id and an architecture that the
    device needs. *)
Definition accepted (self : NativeLibDownloader) (fpath : string) : bool :=
  negb (String.eqb (get_build_id (readelf self) fpath) "") &&
  str_in (get_arch (readelf self) fpath) (need_archs self).

Definition build_id_of (self : NativeLibDownloader) (fpath : string) : string :=
  get_build_id (readelf self) fpath.

Definition score_of (self : NativeLibDownloader) (fpath : string) : nat :=
  compute_score (get_sections (readelf self) fpath).

(** [self.name_count_map.get(name, 0)] *)
Definition count_of (self : NativeLibDownloader) (fname : string) : nat :=
  match Dict.get fname (name_count_map self) with
  | Some c => c
  | None => 0
  end.

(** The entry that line 115 stores for a new build id. *)
Definition fresh_entry (self : NativeLibDownloader) (fpath fname : string)
    : HostElfEntry :=
  {| path := fpath;
     name := unique_name fname (count_of self fname);
     score := score_of self fpath |}.

(** The host entries whose build id the remote manifest lacks, and the
    stored names whose build id the host registry lacks. *)
Definition missing_on_device (host : dict HostElfEntry) (device : dict string)
    : list HostElfEntry :=
  map snd (filter (fun item => negb (mem (fst item) device)) host).

Definition stale_on_device (host : dict HostElfEntry) (device : dict string)
    : list string :=
  map snd (filter (fun item => negb (mem (fst item) host)) device).

(** The build_id-to-name mapping of a host registry. *)
Definition manifest_of (host : dict HostElfEntry) : dict string :=
  map (fun item => (fst item, name (snd item))) host.

(** The manifest format: one [build_id=name] line per entry, each ended by
    a newline. *)
Definition serialize_manifest (m : dict string) : string :=
  String.concat "" (map (fun item => list_line (fst item) (snd item)) m).

(** The events of the three phases of a sync. *)
Definition pushed (entry : HostElfEntry) : event := EvAdb (push_command entry) true.

Definition removal (ev : event) (stored : string) : Prop :=
  exists ok, ev = EvAdb (rm_command stored) ok.

Definition rewrite_events (host : dict HostElfEntry) : list event :=
  [EvWrite build_id_list_file (serialize_manifest (manifest_of host));
   EvAdb push_list_command true;
   EvRemove build_id_list_file].


(** How a sync ends and what it did: it ran the three phases, or stopped
    at the first failed library push, or at the failed push of the list. *)
Inductive sync_outcome (host : dict HostElfEntry) (device : dict string)
    : option unit -> list event -> Prop :=
| sync_done rms :
    Forall2 removal rms (stale_on_device host device) ->
    sync_outcome host device (Some tt)
      (map pushed (missing_on_device host device) ++ rms ++ rewrite_events host)
| sync_push_failed done entry rest :
    missing_on_device host device = done ++ entry :: rest ->
    sync_outcome host device None
      (map pushed done ++ [EvAdb (push_command entry) false])
| sync_list_push_failed rms :
    Forall2 removal rms (stale_on_device host device) ->
    sync_outcome host device None
      (map pushed (missing_on_device host device) ++ rms ++
       [EvWrite build_id_list_file (serialize_manifest (manifest_of host));
        EvAdb push_list_command false]).

(** The number of occurrences of a character. *)
Fixpoint count_char (c : ascii) (s : string) : nat :=
  match s with
  | EmptyString => 0
  | String c' s' => (if Ascii.eqb c' c then 1 else 0) + count_char c s'
  end.

(** A key and a name that the manifest format carries unchanged: no [=],
    no line break (LF, CR), no white space at the start of the key or at the
    end of the name. *)
Definition format_safe (v : python) (build_id stored : string) : bool :=
  negb (contains EQ build_id) && negb (contains EQ stored) &&
  negb (contains LF build_id) && negb (contains LF stored) &&
  negb (contains CR build_id) && negb (contains CR stored) &&
  match first_char build_id with Some c => negb (isspace v c) | None => true end &&
  match last_char stored with Some c => negb (isspace v c) | None => true end.

(** Cutting a line at its first [=] only, as [line.split('=', 1)] would:
    the reading of a line in which the name keeps its further [=]. *)
Fixpoint split_first (sep : ascii) (s : string) : list string :=
  match s with
  | EmptyString => [EmptyString]
  | String c s' =>
      if Ascii.eqb c sep then [EmptyString; s']
      else match split_first sep s' with
           | h :: t => String c h :: t
           | [] => [String c EmptyString]
           end
  end.

Definition read_line_first (v : python) (m : dict string) (line : string)
    : dict string :=
  match split_first EQ (strip v line) with
  | [item0; item1] => Dict.set item0 item1 m
  | _ => m
  end.

(** The decimal digits. *)
Definition digits : string := "0123456789".

(** The four ways through [add_native_lib_on_host]. *)
Inductive add_case (self : NativeLibDownloader) (fpath fname : string)
    : NativeLibDownloader -> Prop :=
| add_skipped :
    accepted self fpath = false ->
    add_case self fpath fname self
| add_replaced entry :
    accepted self fpath = true ->
    Dict.get (build_id_of self fpath) (host_build_id_map self) = Some entry ->
    score entry < score_of self fpath ->
    add_case self fpath fname
      (set_host_build_id_map self
         (Dict.set (build_id_of self fpath)
            {| path := fpath; name := name entry; score := score_of self fpath |}
            (host_build_id_map self)))
| add_kept entry :
    accepted self fpath = true ->
    Dict.get (build_id_of self fpath) (host_build_id_map self) = Some entry ->
    score_of self fpath <= score entry ->
    add_case self fpath fname self
| add_created :
    accepted self fpath = true ->
    Dict.get (build_id_of self fpath) (host_build_id_map self) = None ->
    add_case self fpath fname
      {| readelf := readelf self;
         need_archs := need_archs self;
         host_build_id_map :=
           Dict.set (build_id_of self fpath) (fresh_entry self fpath fname)
             (host_build_id_map self);
         device_build_id_map := device_build_id_map self;
         name_count_map :=
           Dict.set fname (count_of self fname + 1) (name_count_map self) |}.

(** Every entry is named [unique_name fname k] for a file name ending in
    .so and a count already used up, and two build ids never share a name. *)
Definition names_inv (s : NativeLibDownloader) : Prop :=
  (forall b e, Dict.get b (host_build_id_map s) = Some e ->
     exists fname k, endswith fname ".so" = true /\
                     name e = unique_name fname k /\ k < count_of s fname) /\
  (forall b1 b2 e1 e2, b1 <> b2 ->
     Dict.get b1 (host_build_id_map s) = Some e1 ->
     Dict.get b2 (host_build_id_map s) = Some e2 ->
     name e1 <> name e2).

(** Among the calls [l], entry [e] of build id [b] is the first accepted
    file of [b] with the highest score. *)
Definition chosen (s0 : NativeLibDownloader) (l : list (string * string))
    (b : string) (e : HostElfEntry) : Prop :=
  exists l1 fpath fname l2,
    l = l1 ++ (fpath, fname) :: l2 /\
    accepted s0 fpath = true /\ build_id_of s0 fpath = b /\
    path e = fpath /\ score e = score_of s0 fpath /\
    (forall fp fn, In (fp, fn) l1 -> accepted s0 fp = true ->
                   build_id_of s0 fp = b -> score_of s0 fp < score e) /\
    (forall fp fn, In (fp, fn) l2 -> accepted s0 fp = true ->
                   build_id_of s0 fp = b -> score_of s0 fp <= score e).

Definition best_inv (s0 : NativeLibDownloader) (l : list (string * string))
    (s : NativeLibDownloader) : Prop :=
  readelf s = readelf s0 /\ need_archs s = need_archs s0 /\
  (forall fp fn, In (fp, fn) l -> accepted s0 fp = true ->
     Dict.get (build_id_of s0 fp) (host_build_id_map s) <> None) /\
  (forall b e, Dict.get b (host_build_id_map s) = Some e -> chosen s0 l b e).

(** The line written for an item of a manifest. *)
Definition line_of (item : string * string) : string :=
  list_line (fst item) (snd item).

(** The discoveries among the calls [l]: the accepted files whose build id
    no earlier accepted file has ([seen] holds the build ids met so far). *)
Fixpoint discoveries (self : NativeLibDownloader) (seen : list string)
    (l : list (string * string)) : list (string * string) :=
  match l with
  | [] => []
  | (fpath, fname) :: l' =>
      if accepted self fpath && negb (str_in (build_id_of self fpath) seen)
      then (fpath, fname) :: discoveries self (build_id_of self fpath :: seen) l'
      else discoveries self seen l'
  end.

(** How many of the calls [l] have the file name [fname]. *)
Definition occurrences (fname : string) (l : list (string * string)) : nat :=
  length (filter (fun call => String.eqb (snd call) fname) l).

(* ===================================================================== *)
(** * A host directory, a device and a run                                *)
(* ===================================================================== *)

Module Fixture.

(** What readelf reports for the files of the directory below. *)
Definition elf : ReadElf :=
  {| get_build_id := fun p =>
       if String.eqb p "/libs/libfoo.so" then "A1"
       else if String.eqb p "/libs/subdir/libfoo.so" then "A1"
       else if String.eqb p "/libs/liba.so" then "X"
       else if String.eqb p "/libs/subdir/liba.so" then "Y"
       else if String.eqb p "/libs/libmips.so" then "M"
       else "";
     get_arch := fun p =>
       if String.eqb p "/libs/libmips.so" then "mips"
       else if String.eqb p "/libs/subdir/liba.so" then "arm"
       else "arm64";
     get_sections := fun p =>
       if String.eqb p "/libs/subdir/libfoo.so"
       then [".text"; ".symtab"; ".debug_info"]
       else if String.eqb p "/libs/liba.so" then [".text"; ".symtab"]
       else if String.eqb p "/libs/subdir/liba.so" then [".gnu_debugdata"]
       else [".text"] |}.

(** [os.walk("/libs")] *)
Definition libs : walk :=
  [("/libs", ["subdir"],
    ["libfoo.so"; "liba.so"; "notes.txt"; "notelf.so"; "libmips.so"]);
   ("/libs/subdir", [], ["libfoo.so"; "liba.so"])].

Definition fresh : NativeLibDownloader := init elf "arm64".

Definition scanned : NativeLibDownloader := collect_native_libs_on_host fresh libs.

(** The same scanner object scanning the same directory a second time. *)
Definition rescanned : NativeLibDownloader :=
  collect_native_libs_on_host scanned libs.

(** A device on which every adb command succeeds but every [rm]. *)
Definition rm_fails (args : list string) (local : option string) (w : nat)
    : adb_result * nat :=
  ({| adb_ok := negb (str_in "rm" args); adb_fetched := None |}, S w).

(** A device on which the adb command number [w] fails. *)
Definition fails_at (args : list string) (local : option string) (w : nat)
    : adb_result * nat :=
  ({| adb_ok := negb (Nat.eqb w 0); adb_fetched := None |}, pred w).

(** A device that holds a list file: [pull] fetches it, all succeeds. *)
Definition holds (content : string) (args : list string)
    (local : option string) (w : nat) : adb_result * nat :=
  ({| adb_ok := true;
      adb_fetched := if str_in "pull" args then Some content else None |},
   S w).

(** The scenario of the manifest [{B1: lib1.so}] and the registry
    [{B2: lib2.so}]. *)
Definition b1_b2 : NativeLibDownloader :=
  {| readelf := elf;
     need_archs := ["arm"; "arm64"];
     host_build_id_map :=
       [("B2", {| path := "/libs/lib2.so"; name := "lib2.so"; score := 0 |})];
     device_build_id_map := [("B1", "lib1.so")];
     name_count_map := [("lib2.so", 1)] |}.

(** A list with a good line and a line whose name has a further [=]. *)
Definition held : string :=
  ("B1=lib1.so" ++ String LF ("X=lib=1.so" ++ String LF ""))%string.

(** Two codecs: [bytes.decode('ascii')], which has no text for a byte
    above 127, and [bytes.decode('latin-1')], in which every byte is its
    code point. *)
Fixpoint is_ascii (bytes : string) : bool :=
  match bytes with
  | EmptyString => true
  | String c rest => (nat_of_ascii c <? 128)%nat && is_ascii rest
  end.

Definition ascii_codec (bytes : string) : option string :=
  if is_ascii bytes then Some bytes else None.


(** A list with a byte that the ascii codec cannot decode. *)
Definition garbled : string :=
  ("B1=lib" ++ String "255"%char (".so" ++ String LF ""))%string.





End Fixture.

(* ===================================================================== *)
(** * The caller of the three phases                                      *)
(* ===================================================================== *)

(** What a line of the list gives: the key and the name when the stripped
    line has exactly one [=]. *)
Definition line_item (v : python) (line : string) : option (string * string) :=
  match split EQ (strip v line) with
  | [item0; item1] => Some (item0, item1)
  | _ => None
  end.

(** The two adb commands of the reader. *)
Definition mkdir_command : list string := ["shell"; "mkdir"; "-p"; dir_on_device].
Definition pull_command : list string := ["pull"; on_device build_id_list_file].

(** [AppProfiler._download_native_libs]: [config['ndk_path']] is behind
    [re], [self.device_arch] is [device_arch] and [config['native_lib_dir']]
    is the directory that [os.walk] walks as [w]. *)
Definition _download_native_libs {World : Type}
    (adb_exec : list string -> option string -> World -> adb_result * World)
    (decode : string -> option string)
    (v : python) (re : ReadElf) (device_arch : string) (w : walk)
    : M World unit :=
  let downloader := init re device_arch in
  let downloader := collect_native_libs_on_host downloader w in
  bind (collect_native_libs_on_device adb_exec decode v downloader)
       (fun downloader => sync_natives_libs_on_device adb_exec downloader).



(** A rebuilt library: the manifest has lib1.so under the old build id B1,
    the registry has it under the new build id B2. *)
Definition rebuilt : NativeLibDownloader :=
  {| readelf := Fixture.elf;
     need_archs := ["arm"; "arm64"];
     host_build_id_map :=
       [("B2", {| path := "/libs/lib1.so"; name := "lib1.so"; score := 0 |})];
     device_build_id_map := [("B1", "lib1.so")];
     name_count_map := [("lib1.so", 1)] |}.

(** A device that holds the list of the scanned /libs. *)
Definition synced_device : list string -> option string -> nat -> adb_result * nat :=
  Fixture.holds (serialize_manifest (manifest_of (host_build_id_map Fixture.scanned))).

(* ===================================================================== *)
(** * The configuration of [AppProfiler]                                  *)
(* ===================================================================== *)

(** The values of a config: [None], a flag or a string. *)
Inductive pyval :=
| PNone
| PBool (b : bool)
| PStr (s : string).

(** The truth value of a config value in [if], [and], [not]. *)
Definition truthy (x : pyval) : bool :=
  match x with
  | PNone => false
  | PBool b => b
  | PStr s => negb (String.eqb s "")
  end.

(** ['%s' % x] *)
Definition py_str (x : pyval) : string :=
  match x with
  | PNone => "None"
  | PBool true => "True"
  | PBool false => "False"
  | PStr s => s
  end.

(** [config.get(key)]; it is also [config[key]] for a key that is in the
    config, and [check_config] reads with [config[key]] only the keys that
    its first loop has found there. *)
Definition config_get (config : dict pyval) (key : string) : pyval :=
  match Dict.get key config with
  | Some x => x
  | None => PNone
  end.

(** How a method ends: with [log_exit(msg)], with an exception that nothing
    catches, or normally. *)
Inductive checked (A : Type) :=
| LogExit (msg : string)
| Raise (exc : string)
| Done (a : A).
Arguments LogExit {A} _.
Arguments Raise {A} _.
Arguments Done {A} _.

Definition config_names : list string :=
  ["app_package_name"; "native_program"; "cmd"; "native_lib_dir";
   "apk_file_path"; "recompile_app"; "launch_activity"; "launch_inst_test";
   "record_options"; "perf_data_path"; "profile_from_launch"; "app_arch";
   "ndk_path"].

Definition DQ : ascii := "034"%char.

(** ['[%s] "%s" is not a %s' % (key, x, kind)] *)
Definition not_a (key : string) (x : pyval) (kind : string) : string :=
  ("[" ++ key ++ "] " ++ String DQ (py_str x) ++ String DQ (" is not a " ++ kind))%string.

(** [AppProfiler.check_config]; [os.path.isdir] and [os.path.isfile] are
    inputs.  The result is the config as the function leaves it. *)
Definition check_config (isdir isfile : pyval -> bool) (config : dict pyval)
    : checked (dict pyval) :=
  match find (fun key => negb (mem key config)) config_names with
  | Some key => LogExit ("config [" ++ key ++ "] is missing")%string
  | None =>
    let app := truthy (config_get config "app_package_name") in
    let native := truthy (config_get config "native_program") in
    let cmd := truthy (config_get config "cmd") in
    if app && native then
      LogExit "We can't profile an Android app and a native program at the same time."
    else if app && cmd then
      LogExit "We can't profile an Android app and a cmd at the same time."
    else if native && cmd then
      LogExit "We can't profile a native program and a cmd at the same time."
    else if negb app && negb native && negb cmd then
      LogExit "Please set a profiling target: an Android app, a native program or a cmd."
    else if app && (truthy (config_get config "launch_activity") &&
                    truthy (config_get config "launch_inst_test")) then
      LogExit "We can't launch an activity and a test at the same time."
    else
    let native_lib_dir := config_get config "native_lib_dir" in
    if truthy native_lib_dir && negb (isdir native_lib_dir) then
      LogExit (not_a "native_lib_dir" native_lib_dir "dir")
    else if truthy (config_get config "download_libs") && negb (truthy native_lib_dir) then
      LogExit "-lib option should be set to download libraries on device."
    else
    let apk_file_path := config_get config "apk_file_path" in
    if truthy apk_file_path && negb (isfile apk_file_path) then
      LogExit (not_a "apk_file_path" apk_file_path "file")
    else
    let config :=
      if truthy (config_get config "recompile_app") &&
         (negb (truthy (config_get config "launch_activity")) &&
          negb (truthy (config_get config "launch_inst_test")))
      then Dict.set "launch_activity" (PStr ".MainActivity") config
      else config in
    if truthy (config_get config "profile_from_launch") then
      if negb (truthy (config_get config "app_package_name")) then
        LogExit "-p needs to be set to profile from launch."
      else if negb (truthy (config_get config "launch_activity")) then
        LogExit "-a needs to be set to profile from launch."
      else if negb (truthy (config_get config "app_arch")) then
        LogExit "--arch needs to be set to profile from launch."
      else Done config
    else Done config
  end.

(** A config as [main] builds it for [-p com.example.app --ndk_path ...]. *)
Definition app_config : dict pyval :=
  [("app_package_name", PStr "com.example.app"); ("native_program", PNone);
   ("cmd", PNone); ("native_lib_dir", PStr "/libs"); ("apk_file_path", PNone);
   ("recompile_app", PBool true); ("launch_activity", PNone);
   ("launch_inst_test", PNone); ("record_options", PStr "-e task-clock:u -g");
   ("perf_data_path", PStr "perf.data"); ("profile_from_launch", PBool true);
   ("app_arch", PStr "arm64"); ("ndk_path", PNone);
   ("disable_adb_root", PBool false); ("download_libs", PBool true)].

(* ===================================================================== *)
(** * The app's process and architecture                                  *)
(* ===================================================================== *)

(** [needle in hay] for strings. *)
Fixpoint contains_str (needle hay : string) : bool :=
  String.prefix needle hay ||
  match hay with
  | EmptyString => false
  | String _ hay' => contains_str needle hay'
  end.

(** [s.split()]: the maximal runs of characters that are not white space;
    [cur] is the run being read. *)
Fixpoint fields_from (v : python) (cur : string) (s : string) : list string :=
  match s with
  | EmptyString => if String.eqb cur "" then [] else [cur]
  | String c s' =>
      if isspace v c then
        if String.eqb cur "" then fields_from v "" s'
        else cur :: fields_from v "" s'
      else fields_from v (cur ++ String c "")%string s'
  end.

Definition split_ws (v : python) (s : string) : list string := fields_from v "" s.

(** [x == y] for a string and a config value. *)
Definition str_is (s : string) (x : pyval) : bool :=
  match x with
  | PStr s' => String.eqb s s'
  | _ => false
  end.

Section AppProcess.

(** A pid is what [int] makes of a column of [ps]; [int] raises
    ValueError where [py_int] is [None]. *)
Variable Pid : Type.
Variable py_int : string -> option Pid.

Variable v : python.
Variable app_package_name : pyval.     (* config['app_package_name'] *)
Variable app_program : pyval.          (* self.app_program *)
Variable android_version : nat.        (* self.android_version, not negative *)

(** [self._has_opened_apk_file(pid)], a command on the device. *)
Variable has_opened_apk_file : Pid -> bool.

(** The loop of [_find_app_process] over the lines of [ps]. *)
Fixpoint scan_ps (lines : list string) : checked (option Pid) :=
  match lines with
  | [] => Done None
  | line :: rest =>
      let strs := split_ws v line in
      if (length strs <? 2)%nat then scan_ps rest
      else
        let process_name := last strs "" in
        let process_name :=
          if truthy app_package_name
          then hd "" (split ":"%char process_name)
          else process_name in
        if str_is process_name app_program then
          match py_int (if (8 <=? android_version)%nat
                        then nth 0 strs "" else nth 1 strs "") with
          | None => Raise "ValueError"
          | Some pid =>
              if (8 <=? android_version)%nat && truthy app_package_name &&
                 negb (has_opened_apk_file pid)
              then scan_ps rest
              else Done (Some pid)
          end
        else scan_ps rest
  end.

(** [AppProfiler._find_app_process]; [pidof] and [ps] are what
    [adb.run_and_return_output] answers for the two commands. *)
Definition _find_app_process (pidof ps : bool * string) : checked (option Pid) :=
  if negb (truthy app_package_name) && (7 <=? android_version)%nat then
    let (result, output) := pidof in
    if result then
      match py_int output with
      | Some pid => Done (Some pid)
      | None => Raise "ValueError"
      end
    else Done None
  else
    let (result, output) := ps in
    if negb result then Done None
    else scan_ps (split LF output).

(** What a line of [ps] must be for the loop to stop at it with [pid]. *)
Definition names_app (line : string) (pid : Pid) : Prop :=
  let strs := split_ws v line in
  2 <= length strs /\
  (if truthy app_package_name
   then str_is (hd "" (split ":"%char (last strs ""))) app_program = true
   else str_is (last strs "") app_program = true) /\
  py_int (if (8 <=? android_version)%nat then nth 0 strs "" else nth 1 strs "")
  = Some pid.

(** A line that the loop passes over: fewer than two fields, another
    process name, or (from Android O on, for an app) a process that has
    no apk file open. *)
Definition passed_over (line : string) : Prop :=
  let strs := split_ws v line in
  length strs < 2 \/
  (if truthy app_package_name
   then str_is (hd "" (split ":"%char (last strs ""))) app_program = false
   else str_is (last strs "") app_program = false) \/
  (exists pid, names_app line pid /\
               8 <= android_version /\ truthy app_package_name = true /\
               has_opened_apk_file pid = false).

End AppProcess.

(** [AppProfiler._get_app_environment]: the result is the pair of
    [self.app_pid] and [self.app_arch] as the method leaves them.  [found]
    is what [_find_app_process] returns when called, [cat_maps pid] what
    [run_in_app_dir(['cat', '/proc/%d/maps' % pid])] returns. *)
Definition _get_app_environment {Pid : Type}
    (cmd app_arch app_program : pyval) (device_arch : string)
    (app_pid : option Pid) (found : checked (option Pid))
    (cat_maps : Pid -> checked string) : checked (option Pid * pyval) :=
  let located :=
    if negb (truthy cmd) then
      match app_pid with
      | Some pid => Done (Some pid)
      | None =>
          match found with
          | Done (Some pid) => Done (Some pid)
          | Done None =>
              LogExit ("can't find process for app [" ++ py_str app_program ++ "]")%string
          | LogExit msg => LogExit msg
          | Raise exc => Raise exc
          end
      end
    else Done app_pid in
  match located with
  | LogExit msg => LogExit msg
  | Raise exc => Raise exc
  | Done app_pid =>
      if negb (truthy app_arch) then
        if negb (truthy cmd) && str_in device_arch ["arm64"; "x86_64"] then
          match app_pid with
          | None => Raise "TypeError"
          | Some pid =>
              match cat_maps pid with
              | LogExit msg => LogExit msg
              | Raise exc => Raise exc
              | Done output =>
                  Done (app_pid,
                        PStr (if contains_str "linker64" output then device_arch
                              else if String.eqb device_arch "arm64" then "arm"
                                   else "x86"))
              end
          end
        else Done (app_pid, PStr device_arch)
      else Done (app_pid, app_arch)
  end.

(** [int(s)] for a [str], as CPython 3 has it from 3.6 on: white space
    around (TAB..CR, space, NEL and NBSP), an optional sign, then decimal
    digits with single underscores between them and nothing else.  [None]
    is ValueError.  [max_str_digits] is [sys.get_int_max_str_digits()],
    the largest number of digits that is converted: 4300 from 3.11 on
    unless set otherwise, and 0 for no limit (as before 3.11). *)
Definition int_space (c : ascii) : bool :=
  let n := nat_of_ascii c in
  (((9 <=? n) && (n <=? 13)) || (n =? 32) || (n =? 133) || (n =? 160))%nat.

Definition digit_value (c : ascii) : option nat :=
  let n := nat_of_ascii c in
  if ((48 <=? n) && (n <=? 57))%nat then Some (n - 48) else None.

Fixpoint skip_space (s : string) : string :=
  match s with
  | String c s' => if int_space c then skip_space s' else s
  | EmptyString => s
  end.

Fixpoint all_space (s : string) : bool :=
  match s with
  | String c s' => int_space c && all_space s'
  | EmptyString => true
  end.

(** The digits of the literal and the white space after them;
    [after_digit] says that the character before was a digit. *)
Fixpoint int_digits (after_digit : bool) (s : string) : option (list nat) :=
  match s with
  | EmptyString => if after_digit then Some [] else None
  | String c s' =>
      if Ascii.eqb c "_" then
        if after_digit then int_digits false s' else None
      else
        match digit_value c with
        | Some d => option_map (cons d) (int_digits true s')
        | None => if after_digit && int_space c && all_space s' then Some [] else None
        end
  end.

Definition py3_int (max_str_digits : nat) (s : string) : option Z :=
  let s := skip_space s in
  let (negative, s) :=
    match s with
    | String "+" s' => (false, s')
    | String "-" s' => (true, s')
    | _ => (false, s)
    end in
  match int_digits false s with
  | None => None
  | Some ds =>
      if ((0 <? max_str_digits) && (max_str_digits <? length ds))%nat then None
      else
        let n := fold_left (fun acc d => (10 * acc + Z.of_nat d)%Z) ds 0%Z in
        Some (if negative then (- n)%Z else n)
  end.

(** An output of [ps] on Android N. *)
Definition ps_output : string :=
  ("USER PID PPID NAME" ++ String LF
   ("u0_a1 77 1 com.other" ++ String LF
    ("u0_a12 1234 567 com.example.app:remote" ++ String LF "")))%string.

(* ===================================================================== *)
(** * Facts about strings                                                 *)
(* ===================================================================== *)

Module PyStrFacts.

Local Open Scope string_scope.

Lemma append_assoc (a b c : string) : (a ++ b) ++ c = a ++ (b ++ c).
Proof. induction a as [|x a IH]; simpl; [reflexivity | now rewrite IH]. Qed.

Lemma append_nil_r (a : string) : a ++ "" = a.
Proof. induction a as [|x a IH]; simpl; [reflexivity | now rewrite IH]. Qed.

Lemma contains_app (c : ascii) (a b : string) :
  contains c (a ++ b) = contains c a || contains c b.
Proof.
  induction a as [|x a IH]; simpl; [reflexivity|].
  rewrite IH. now rewrite orb_assoc.
Qed.

Lemma endswith_app (s suffix : string) :
  endswith s suffix = true -> exists p, s = p ++ suffix.
Proof.
  induction s as [|x s IH]; cbn [endswith]; intros H.
  - destruct suffix; [now exists "" | discriminate].
  - apply orb_true_iff in H. destruct H as [H|H].
    + apply String.eqb_eq in H. exists "". now rewrite H.
    + destruct (IH H) as [p Hp]. exists (String x p). simpl. now rewrite Hp.
Qed.

Lemma app_endswith (p suffix : string) : endswith (p ++ suffix) suffix = true.
Proof.
  induction p as [|x p IH]; cbn [endswith append].
  - destruct suffix; cbn [endswith]; now rewrite String.eqb_refl.
  - rewrite IH. apply orb_true_r.
Qed.

Lemma last_char_app (p s : string) :
  s <> "" -> last_char (p ++ s) = last_char s.
Proof.
  intros Hs. induction p as [|x p IH]; simpl; [reflexivity|].
  rewrite <- IH. destruct (p ++ s) eqn:E; [|reflexivity].
  destruct p; simpl in E; [contradiction | discriminate].
Qed.

Lemma last_char_contains (s : string) (c : ascii) :
  last_char s = Some c -> contains c s = true.
Proof.
  induction s as [|x s IH]; simpl; [discriminate|].
  destruct s as [|y s].
  - intros H. injection H as ->. now rewrite Ascii.eqb_refl.
  - intros H. rewrite (IH H). apply orb_true_r.
Qed.

(** Cutting at the last separator: what follows it has none. *)
Lemma app_sep_inj (sep : ascii) (a1 a2 d1 d2 : string) :
  contains sep d1 = false -> contains sep d2 = false ->
  a1 ++ String sep d1 = a2 ++ String sep d2 -> a1 = a2 /\ d1 = d2.
Proof.
  intros H1 H2. revert a2.
  induction a1 as [|x a1 IH]; intros [|y a2]; simpl; intros E.
  - injection E as E. now split.
  - injection E as <- E. subst d1.
    rewrite contains_app in H1. simpl in H1.
    rewrite Ascii.eqb_refl in H1. simpl in H1.
    rewrite orb_true_r in H1. discriminate.
  - injection E as -> E. subst d2.
    rewrite contains_app in H2. simpl in H2.
    rewrite Ascii.eqb_refl in H2. simpl in H2.
    rewrite orb_true_r in H2. discriminate.
  - injection E as -> E. destruct (IH _ E) as [-> ->]. now split.
Qed.



Lemma string_of_uint_digits (d : uint) (c : ascii) :
  contains c (NilEmpty.string_of_uint d) = true -> contains c digits = true.
Proof.
  induction d; cbn [NilEmpty.string_of_uint contains]; intros H;
    try discriminate;
    apply orb_true_iff in H; destruct H as [H|H]; auto;
    apply Ascii.eqb_eq in H; subst c; reflexivity.
Qed.

Lemma str_of_nat_digits (n : nat) (c : ascii) :
  contains c (str_of_nat n) = true -> contains c digits = true.
Proof. apply string_of_uint_digits. Qed.

Lemma str_of_nat_no (c : ascii) (n : nat) :
  contains c digits = false -> contains c (str_of_nat n) = false.
Proof.
  intros H. destruct (contains c (str_of_nat n)) eqn:E; [|reflexivity].
  apply str_of_nat_digits in E. congruence.
Qed.

Lemma str_of_nat_inj (n m : nat) : str_of_nat n = str_of_nat m -> n = m.
Proof.
  unfold str_of_nat. intros H.
  apply DecimalNat.Unsigned.to_uint_inj.
  assert (E : Some (Nat.to_uint n) = Some (Nat.to_uint m)).
  { rewrite <- !NilEmpty.usu. now rewrite H. }
  now injection E.
Qed.

Lemma unique_name_suffixed_last (fname : string) (k : nat) (c : ascii) :
  k <> 0 -> last_char (unique_name fname k) = Some c ->
  contains c "_0123456789" = true.
Proof.
  intros Hk. unfold unique_name.
  destruct (Nat.eqb_spec k 0) as [|_]; [contradiction|].
  rewrite last_char_app by discriminate.
  intros H. apply last_char_contains in H.
  change ("_" ++ str_of_nat k) with (String "_" (str_of_nat k)) in H.
  cbn [contains] in H. apply orb_true_iff in H. destruct H as [H|H].
  - apply Ascii.eqb_eq in H. subst c. reflexivity.
  - apply str_of_nat_digits in H.
    change "_0123456789" with (String "_" digits). cbn [contains].
    rewrite H. apply orb_true_r.
Qed.

Lemma so_last (fname : string) :
  endswith fname ".so" = true -> last_char fname = Some "o"%char.
Proof.
  intros H. apply endswith_app in H. destruct H as [p ->].
  now rewrite last_char_app by discriminate.
Qed.

(** The names that [unique_name] makes from file names ending in .so
    determine the file name and the count. *)
Lemma unique_name_inj (f1 f2 : string) (k1 k2 : nat) :
  endswith f1 ".so" = true -> endswith f2 ".so" = true ->
  unique_name f1 k1 = unique_name f2 k2 -> f1 = f2 /\ k1 = k2.
Proof.
  intros E1 E2 H.
  destruct (Nat.eq_dec k1 0) as [Z1|N1]; destruct (Nat.eq_dec k2 0) as [Z2|N2].
  - subst. now split.
  - exfalso. subst k1. unfold unique_name at 1 in H. simpl in H.
    pose proof (so_last _ E1) as L. rewrite H in L.
    apply unique_name_suffixed_last in L; [discriminate | assumption].
  - exfalso. subst k2. unfold unique_name at 2 in H. simpl in H.
    pose proof (so_last _ E2) as L. rewrite <- H in L.
    apply unique_name_suffixed_last in L; [discriminate | assumption].
  - unfold unique_name in H.
    destruct (Nat.eqb_spec k1 0); [contradiction|].
    destruct (Nat.eqb_spec k2 0); [contradiction|].
    change ("_" ++ str_of_nat k1) with (String "_" (str_of_nat k1)) in H.
    change ("_" ++ str_of_nat k2) with (String "_" (str_of_nat k2)) in H.
    apply app_sep_inj in H; try (apply str_of_nat_no; reflexivity).
    destruct H as [-> H]. split; [reflexivity | now apply str_of_nat_inj].
Qed.

End PyStrFacts.

(* ===================================================================== *)
(** * Facts about dicts                                                   *)
(* ===================================================================== *)

Module DictFacts.

Section WithValues.
Context {V : Type}.
Implicit Types (d : dict V) (k : string) (v : V).

Lemma get_set_eq k v d : Dict.get k (Dict.set k v d) = Some v.
Proof.
  induction d as [|[k' v'] d IH]; cbn [Dict.get Dict.set].
  - now rewrite String.eqb_refl.
  - destruct (String.eqb_spec k k') as [->|N]; cbn [Dict.get].
    + now rewrite String.eqb_refl.
    + destruct (String.eqb_spec k k'); [contradiction | exact IH].
Qed.

Lemma get_set_ne k k' v d :
  k <> k' -> Dict.get k' (Dict.set k v d) = Dict.get k' d.
Proof.
  intros N. induction d as [|[k0 v0] d IH]; cbn [Dict.get Dict.set].
  - destruct (String.eqb_spec k' k); [congruence | reflexivity].
  - destruct (String.eqb_spec k k0) as [->|N0]; cbn [Dict.get].
    + destruct (String.eqb_spec k' k0); [congruence | reflexivity].
    + now rewrite IH.
Qed.

Lemma get_None_keys k d : Dict.get k d = None <-> ~ In k (keys d).
Proof.
  induction d as [|[k' v'] d IH]; cbn [Dict.get keys map fst In].
  - tauto.
  - destruct (String.eqb_spec k k') as [->|N].
    + split; [discriminate | intros H; exfalso; apply H; now left].
    + unfold keys in IH. rewrite IH. intuition congruence.
Qed.

Lemma get_Some_In k v d : Dict.get k d = Some v -> In (k, v) d.
Proof.
  induction d as [|[k' v'] d IH]; cbn [Dict.get In]; [discriminate|].
  destruct (String.eqb_spec k k') as [->|N].
  - intros H. injection H as ->. now left.
  - intros H. right. now apply IH.
Qed.

Lemma In_keys k v d : In (k, v) d -> In k (keys d).
Proof. intros H. apply (in_map fst) in H. exact H. Qed.

Lemma In_get_Some k v d : dict_wf d -> In (k, v) d -> Dict.get k d = Some v.
Proof.
  unfold dict_wf. induction d as [|[k' v'] d IH]; cbn [keys map fst In Dict.get].
  - tauto.
  - intros W. inversion W as [|? ? Hn W']; subst.
    intros [E|H].
    + injection E as -> ->. now rewrite String.eqb_refl.
    + destruct (String.eqb_spec k k') as [->|N].
      * exfalso. apply Hn. eapply In_keys; eassumption.
      * now apply IH.
Qed.

Lemma key_get k d : In k (keys d) -> exists v, Dict.get k d = Some v.
Proof.
  intros H. destruct (Dict.get k d) eqn:E; [eauto|].
  apply get_None_keys in E. contradiction.
Qed.

Lemma mem_true_iff k d : mem k d = true <-> In k (keys d).
Proof.
  unfold mem. destruct (Dict.get k d) eqn:E.
  - split; [intros _ | reflexivity].
    apply get_Some_In in E. eapply In_keys; eassumption.
  - apply get_None_keys in E. split; [discriminate | contradiction].
Qed.

Lemma mem_false_iff k d : mem k d = false <-> Dict.get k d = None.
Proof. unfold mem. destruct (Dict.get k d); split; congruence. Qed.

Lemma set_present k v v0 d :
  Dict.get k d = Some v0 -> keys (Dict.set k v d) = keys d.
Proof.
  induction d as [|[k' v'] d IH]; cbn [Dict.get Dict.set]; [discriminate|].
  destruct (String.eqb_spec k k') as [->|N]; intros H; cbn [keys map fst].
  - reflexivity.
  - f_equal. now apply IH.
Qed.

Lemma set_absent k v d : Dict.get k d = None -> Dict.set k v d = d ++ [(k, v)].
Proof.
  induction d as [|[k' v'] d IH]; cbn [Dict.get Dict.set]; [reflexivity|].
  destruct (String.eqb_spec k k') as [->|N]; intros H; [discriminate|].
  rewrite <- app_comm_cons. f_equal. now apply IH.
Qed.

Lemma set_wf k v d : dict_wf d -> dict_wf (Dict.set k v d).
Proof.
  unfold dict_wf. induction d as [|[k' v'] d IH]; cbn [Dict.set keys map fst].
  - intros _. constructor; [intros [] | constructor].
  - intros W. inversion W as [|? ? Hn W']; subst.
    destruct (String.eqb_spec k k') as [->|N]; cbn [keys map fst].
    + exact W.
    + constructor; [|now apply IH].
      intros H. apply key_get in H. destruct H as [x H].
      rewrite get_set_ne in H by assumption.
      apply get_Some_In, In_keys in H. contradiction.
Qed.

End WithValues.

End DictFacts.

(* ===================================================================== *)
(** * Facts about the host scanner                                        *)
(* ===================================================================== *)

Module ScanFacts.

Import DictFacts PyStrFacts.

Lemma str_in_In (x : string) (l : list string) : str_in x l = true <-> In x l.
Proof.
  unfold str_in. rewrite existsb_exists. split.
  - intros [y [Hy E]]. apply String.eqb_eq in E. now subst.
  - intros H. exists x. split; [exact H | apply String.eqb_refl].
Qed.

Lemma str_in_false (x : string) (l : list string) : str_in x l = false <-> ~ In x l.
Proof.
  rewrite <- str_in_In. destruct (str_in x l); split; congruence.
Qed.



Lemma add_cases self fpath fname :
  add_case self fpath fname (add_native_lib_on_host self fpath fname).
Proof.
  unfold add_native_lib_on_host.
  destruct (String.eqb (get_build_id (readelf self) fpath) "") eqn:Eb.
  { apply add_skipped. unfold accepted. now rewrite Eb. }
  destruct (str_in (get_arch (readelf self) fpath) (need_archs self)) eqn:Ea;
    cbn [negb].
  2:{ apply add_skipped. unfold accepted. rewrite Eb, Ea. reflexivity. }
  assert (Acc : accepted self fpath = true).
  { unfold accepted. rewrite Eb, Ea. reflexivity. }
  destruct (Dict.get (get_build_id (readelf self) fpath) (host_build_id_map self))
    as [entry|] eqn:Eg.
  - destruct (Nat.ltb_spec (score entry)
                (compute_score (get_sections (readelf self) fpath))) as [L|L].
    + now apply (add_replaced self fpath fname entry).
    + now apply (add_kept self fpath fname entry).
  - now apply add_created.
Qed.

Lemma add_readelf self fpath fname :
  readelf (add_native_lib_on_host self fpath fname) = readelf self.
Proof. destruct (add_cases self fpath fname); reflexivity. Qed.

Lemma add_need_archs self fpath fname :
  need_archs (add_native_lib_on_host self fpath fname) = need_archs self.
Proof. destruct (add_cases self fpath fname); reflexivity. Qed.

Lemma add_all_app self l1 l2 :
  add_all self (l1 ++ l2) = add_all (add_all self l1) l2.
Proof. unfold add_all. apply fold_left_app. Qed.

Lemma add_all_readelf self l : readelf (add_all self l) = readelf self.
Proof.
  revert self. induction l as [|[fp fn] l IH]; intros self; [reflexivity|].
  cbn [add_all fold_left]. fold (add_all (add_native_lib_on_host self fp fn) l).
  rewrite IH. apply add_readelf.
Qed.

Lemma add_all_need_archs self l : need_archs (add_all self l) = need_archs self.
Proof.
  revert self. induction l as [|[fp fn] l IH]; intros self; [reflexivity|].
  cbn [add_all fold_left]. fold (add_all (add_native_lib_on_host self fp fn) l).
  rewrite IH. apply add_need_archs.
Qed.

Lemma accepted_ext s1 s2 fpath :
  readelf s1 = readelf s2 -> need_archs s1 = need_archs s2 ->
  accepted s1 fpath = accepted s2 fpath.
Proof. unfold accepted. now intros -> ->. Qed.

Lemma candidates_so (w : walk) fpath fname :
  In (fpath, fname) (candidates w) -> endswith fname ".so" = true.
Proof.
  unfold candidates. rewrite in_flat_map.
  intros [[[root dirs] files] [_ H]].
  rewrite in_map_iff in H. destruct H as [x [E H]].
  injection E as _ ->. now apply filter_In in H.
Qed.

End ScanFacts.

(* ===================================================================== *)
(** * Names are unique within a scan                                      *)
(* ===================================================================== *)

Module NameFacts.

Import DictFacts PyStrFacts ScanFacts.



Lemma names_inv_cleared self : names_inv (set_host_build_id_map self []).
Proof. split; cbn; intros; discriminate. Qed.

Lemma count_of_set s rd na h dv fname f :
  count_of {| readelf := rd; need_archs := na; host_build_id_map := h;
              device_build_id_map := dv;
              name_count_map := Dict.set fname (count_of s fname + 1)
                                  (name_count_map s) |} f
  = if String.eqb fname f then count_of s fname + 1 else count_of s f.
Proof.
  unfold count_of at 1. cbn [name_count_map].
  destruct (String.eqb_spec fname f) as [<-|N].
  - now rewrite get_set_eq.
  - rewrite get_set_ne by assumption. reflexivity.
Qed.

Lemma names_inv_add s fpath fname :
  endswith fname ".so" = true -> names_inv s ->
  names_inv (add_native_lib_on_host s fpath fname).
Proof.
  intros So [I1 I2].
  destruct (add_cases s fpath fname) as [A | e0 A G L | e0 A G L | A G].
  - now split.
  - (* replaced: every name is the one the build id had before *)
    assert (Old : forall b e,
               Dict.get b (Dict.set (build_id_of s fpath)
                  {| path := fpath; name := name e0; score := score_of s fpath |}
                  (host_build_id_map s)) = Some e ->
               exists e', Dict.get b (host_build_id_map s) = Some e' /\
                          name e = name e').
    { intros b e. destruct (string_dec (build_id_of s fpath) b) as [<-|N].
      - rewrite get_set_eq. intros H. injection H as <-. eauto.
      - rewrite get_set_ne by assumption. eauto. }
    split; cbn [set_host_build_id_map host_build_id_map].
    + intros b e H. destruct (Old _ _ H) as [e' [H' ->]].
      exact (I1 _ _ H').
    + intros b1 b2 e1 e2 N H1 H2.
      destruct (Old _ _ H1) as [e1' [H1' ->]].
      destruct (Old _ _ H2) as [e2' [H2' ->]].
      exact (I2 _ _ _ _ N H1' H2').
  - now split.
  - (* created: the count of [fname] was never used for [fname] *)
    assert (Fresh : forall b e,
               Dict.get b (host_build_id_map s) = Some e ->
               name e <> unique_name fname (count_of s fname)).
    { intros b e H E. destruct (I1 _ _ H) as [f [k [Sf [Ek Lk]]]].
      rewrite Ek in E. apply unique_name_inj in E; try assumption.
      destruct E as [-> ->]. lia. }
    split; cbn [host_build_id_map].
    + intros b e. destruct (string_dec (build_id_of s fpath) b) as [<-|N].
      * rewrite get_set_eq. intros H. injection H as <-.
        exists fname, (count_of s fname). split; [exact So|].
        split; [reflexivity|].
        rewrite count_of_set, String.eqb_refl. lia.
      * rewrite get_set_ne by assumption. intros H.
        destruct (I1 _ _ H) as [f [k [Sf [Ek Lk]]]].
        exists f, k. split; [exact Sf|]. split; [exact Ek|].
        rewrite count_of_set. destruct (String.eqb_spec fname f); [subst|]; lia.
    + intros b1 b2 e1 e2 N.
      destruct (string_dec (build_id_of s fpath) b1) as [<-|N1];
        destruct (string_dec (build_id_of s fpath) b2) as [<-|N2].
      * contradiction.
      * rewrite get_set_eq, get_set_ne by assumption.
        intros H1 H2. injection H1 as <-. cbn [fresh_entry name].
        intros E. symmetry in E. exact (Fresh _ _ H2 E).
      * rewrite get_set_eq, get_set_ne by assumption.
        intros H1 H2. injection H2 as <-. cbn [fresh_entry name].
        exact (Fresh _ _ H1).
      * rewrite !get_set_ne by assumption. apply I2. exact N.
Qed.

Lemma names_inv_add_all l : forall s,
  (forall fpath fname, In (fpath, fname) l -> endswith fname ".so" = true) ->
  names_inv s -> names_inv (add_all s l).
Proof.
  induction l as [|[fp fn] l IH]; intros s So I; [exact I|].
  cbn [add_all fold_left]. fold (add_all (add_native_lib_on_host s fp fn) l).
  apply IH.
  - intros fpath fname H. apply (So fpath fname). now right.
  - apply names_inv_add; [|exact I]. apply (So fp fn). now left.
Qed.

Lemma names_inv_collect self w : names_inv (collect_native_libs_on_host self w).
Proof.
  unfold collect_native_libs_on_host. apply names_inv_add_all.
  - intros fpath fname. apply candidates_so.
  - apply names_inv_cleared.
Qed.

End NameFacts.

(* ===================================================================== *)
(** * The entry of a build id is its best file                            *)
(* ===================================================================== *)

Module BestFacts.

Import DictFacts ScanFacts.



Lemma chosen_later s0 l b e fp0 fn0 :
  chosen s0 l b e ->
  (accepted s0 fp0 = true -> build_id_of s0 fp0 = b ->
   score_of s0 fp0 <= score e) ->
  chosen s0 (l ++ [(fp0, fn0)]) b e.
Proof.
  intros (l1 & fp & fn & l2 & -> & A & B & P & S & Before & After) H.
  exists l1, fp, fn, (l2 ++ [(fp0, fn0)]).
  rewrite <- app_assoc, <- app_comm_cons.
  repeat (split; [assumption || reflexivity|]).
  intros fp' fn' I. apply in_app_or in I. destruct I as [I|[I|[]]].
  - now apply (After fp' fn').
  - injection I as <- <-. exact H.
Qed.

Lemma chosen_bound s0 l b e fp fn :
  chosen s0 l b e -> In (fp, fn) l -> accepted s0 fp = true ->
  build_id_of s0 fp = b -> score_of s0 fp <= score e.
Proof.
  intros (l1 & fp1 & fn1 & l2 & -> & A & B & P & S & Before & After) I Ac Bi.
  apply in_app_or in I. destruct I as [I|[I|I]].
  - apply Nat.lt_le_incl. now apply (Before fp fn).
  - injection I as <- <-. lia.
  - now apply (After fp fn).
Qed.

Lemma chosen_last s0 l b fp0 fn0 e :
  accepted s0 fp0 = true -> build_id_of s0 fp0 = b ->
  path e = fp0 -> score e = score_of s0 fp0 ->
  (forall fp fn, In (fp, fn) l -> accepted s0 fp = true ->
                 build_id_of s0 fp = b -> score_of s0 fp < score e) ->
  chosen s0 (l ++ [(fp0, fn0)]) b e.
Proof.
  intros A B P S Before. exists l, fp0, fn0, [].
  repeat (split; [assumption || reflexivity|]).
  intros ? ? [].
Qed.

Lemma best_inv_add s0 l s fp0 fn0 :
  best_inv s0 l s ->
  best_inv s0 (l ++ [(fp0, fn0)]) (add_native_lib_on_host s fp0 fn0).
Proof.
  intros (Re & Na & Known & Best).
  assert (EA : forall fp, accepted s fp = accepted s0 fp)
    by (intros; now apply accepted_ext).
  assert (EB : forall fp, build_id_of s fp = build_id_of s0 fp)
    by (intros; unfold build_id_of; now rewrite Re).
  assert (ES : forall fp, score_of s fp = score_of s0 fp)
    by (intros; unfold score_of; now rewrite Re).
  destruct (add_cases s fp0 fn0) as [A | e0 A G L | e0 A G L | A G];
    rewrite ?EA, ?EB, ?ES in *.
  - (* skipped *)
    repeat (split; [assumption|]). split.
    + intros fp fn I Ac. apply in_app_or in I. destruct I as [I|[I|[]]].
      * now apply (Known fp fn).
      * injection I as <- <-. congruence.
    + intros b e H. apply chosen_later; [now apply Best|]. congruence.
  - (* replaced *)
    unfold best_inv.
    cbn [set_host_build_id_map readelf need_archs host_build_id_map].
    repeat (split; [assumption|]). split.
    + intros fp fn I Ac.
      destruct (string_dec (build_id_of s0 fp0) (build_id_of s0 fp)) as [<-|N].
      * rewrite get_set_eq. discriminate.
      * rewrite get_set_ne by assumption.
        apply in_app_or in I. destruct I as [I|[I|[]]].
        -- now apply (Known fp fn).
        -- injection I as <- <-. contradiction.
    + intros b e. destruct (string_dec (build_id_of s0 fp0) b) as [<-|N].
      * rewrite get_set_eq. intros H. injection H as <-.
        apply chosen_last; try reflexivity; try assumption.
        cbn [score]. intros fp fn I Ac Bi.
        pose proof (chosen_bound _ _ _ _ _ _ (Best _ _ G) I Ac Bi). lia.
      * rewrite get_set_ne by assumption. intros H.
        apply chosen_later; [now apply Best|]. intros _ Bi. contradiction.
  - (* kept *)
    repeat (split; [assumption|]). split.
    + intros fp fn I Ac. apply in_app_or in I. destruct I as [I|[I|[]]].
      * now apply (Known fp fn).
      * injection I as <- <-. congruence.
    + intros b e H. apply chosen_later; [now apply Best|].
      intros _ Bi. subst b. rewrite G in H. injection H as <-. exact L.
  - (* created *)
    unfold best_inv.
    cbn [readelf need_archs host_build_id_map].
    repeat (split; [assumption|]). split.
    + intros fp fn I Ac.
      destruct (string_dec (build_id_of s0 fp0) (build_id_of s0 fp)) as [<-|N].
      * rewrite get_set_eq. discriminate.
      * rewrite get_set_ne by assumption.
        apply in_app_or in I. destruct I as [I|[I|[]]].
        -- now apply (Known fp fn).
        -- injection I as <- <-. contradiction.
    + intros b e. destruct (string_dec (build_id_of s0 fp0) b) as [<-|N].
      * rewrite get_set_eq. intros H. injection H as <-.
        apply chosen_last; try reflexivity; try assumption.
        -- cbn [fresh_entry score]. apply ES.
        -- intros fp fn I Ac Bi. exfalso.
           apply (Known fp fn I Ac). now rewrite Bi.
      * rewrite get_set_ne by assumption. intros H.
        apply chosen_later; [now apply Best|]. intros _ Bi. contradiction.
Qed.

Lemma best_inv_add_all s0 l2 : forall l1 s,
  best_inv s0 l1 s -> best_inv s0 (l1 ++ l2) (add_all s l2).
Proof.
  induction l2 as [|[fp fn] l2 IH]; intros l1 s I.
  - now rewrite app_nil_r.
  - cbn [add_all fold_left]. fold (add_all (add_native_lib_on_host s fp fn) l2).
    change ((fp, fn) :: l2) with ([(fp, fn)] ++ l2). rewrite app_assoc.
    apply IH. now apply best_inv_add.
Qed.

Lemma best_inv_collect self w :
  best_inv (set_host_build_id_map self []) (candidates w)
           (collect_native_libs_on_host self w).
Proof.
  unfold collect_native_libs_on_host.
  apply (best_inv_add_all _ (candidates w) []).
  repeat split; cbn; intros; (contradiction || discriminate).
Qed.

End BestFacts.

(* ===================================================================== *)
(** * Names follow the order of discovery                                 *)
(* ===================================================================== *)

Module DiscoveryFacts.

Import DictFacts ScanFacts NameFacts BestFacts.

Lemma discoveries_ext s1 s2 l : forall seen,
  readelf s1 = readelf s2 -> need_archs s1 = need_archs s2 ->
  discoveries s1 seen l = discoveries s2 seen l.
Proof.
  induction l as [|[fp fn] l IH]; intros seen R A; [reflexivity|].
  cbn [discoveries]. rewrite (accepted_ext s1 s2 fp R A).
  unfold build_id_of. rewrite R. fold (build_id_of s2 fp).
  destruct (accepted s2 fp && negb (str_in (build_id_of s2 fp) seen));
    [f_equal|]; now apply IH.
Qed.

Lemma occurrences_cons fname fp fn l :
  occurrences fname ((fp, fn) :: l)
  = (if String.eqb fn fname then 1 else 0) + occurrences fname l.
Proof.
  unfold occurrences. cbn [filter snd].
  destruct (String.eqb fn fname); reflexivity.
Qed.

Lemma mem_set {V} (k k' : string) (v : V) (d : dict V) :
  mem k' (Dict.set k v d) = String.eqb k' k || mem k' d.
Proof.
  unfold mem. destruct (String.eqb_spec k' k) as [->|N].
  - now rewrite get_set_eq.
  - rewrite get_set_ne by congruence. reflexivity.
Qed.

(** The count of a file name grows by its discoveries. *)
Lemma count_of_add_all fname l : forall s seen,
  (forall b, mem b (host_build_id_map s) = str_in b seen) ->
  count_of (add_all s l) fname
  = count_of s fname + occurrences fname (discoveries s seen l).
Proof.
  induction l as [|[fp fn] l IH]; intros s seen Seen.
  - cbn. unfold occurrences. cbn. lia.
  - cbn [add_all fold_left discoveries].
    fold (add_all (add_native_lib_on_host s fp fn) l).
    pose proof (add_readelf s fp fn) as R.
    pose proof (add_need_archs s fp fn) as A.
    destruct (add_cases s fp fn) as [Ac | e0 Ac G L | e0 Ac G L | Ac G].
    + rewrite Ac. cbn [andb]. now apply IH.
    + assert (M : str_in (build_id_of s fp) seen = true).
      { rewrite <- Seen. unfold mem. now rewrite G. }
      rewrite Ac, M. cbn [andb negb].
      rewrite (IH _ seen).
      * f_equal. f_equal. now apply discoveries_ext.
      * intros b. cbn [set_host_build_id_map host_build_id_map].
        rewrite mem_set, <- Seen.
        destruct (String.eqb_spec b (build_id_of s fp)) as [->|N]; [|reflexivity].
        unfold mem. now rewrite G.
    + assert (M : str_in (build_id_of s fp) seen = true).
      { rewrite <- Seen. unfold mem. now rewrite G. }
      rewrite Ac, M. cbn [andb negb]. now apply IH.
    + assert (M : str_in (build_id_of s fp) seen = false).
      { rewrite <- Seen. unfold mem. now rewrite G. }
      rewrite Ac, M. cbn [andb negb].
      rewrite (IH _ (build_id_of s fp :: seen)).
      * rewrite count_of_set, occurrences_cons.
        rewrite (discoveries_ext _ s) by assumption.
        destruct (String.eqb_spec fn fname) as [->|N]; lia.
      * intros b. cbn [host_build_id_map str_in existsb].
        rewrite mem_set. unfold str_in in Seen. now rewrite Seen.
Qed.

(** The name of an entry stays. *)
Lemma name_kept_add s fp fn b e :
  Dict.get b (host_build_id_map s) = Some e ->
  exists e', Dict.get b (host_build_id_map (add_native_lib_on_host s fp fn)) = Some e' /\
             name e' = name e.
Proof.
  intros H.
  destruct (add_cases s fp fn) as [Ac | e0 Ac G L | e0 Ac G L | Ac G]; eauto;
    cbn [set_host_build_id_map host_build_id_map];
    (destruct (string_dec (build_id_of s fp) b) as [<-|N];
     [| rewrite get_set_ne by assumption; eauto]).
  - rewrite get_set_eq. rewrite G in H. injection H as <-. eauto.
  - congruence.
Qed.

Lemma name_kept_add_all l : forall s b e,
  Dict.get b (host_build_id_map s) = Some e ->
  exists e', Dict.get b (host_build_id_map (add_all s l)) = Some e' /\
             name e' = name e.
Proof.
  induction l as [|[fp fn] l IH]; intros s b e H; [eauto|].
  cbn [add_all fold_left]. fold (add_all (add_native_lib_on_host s fp fn) l).
  destruct (name_kept_add s fp fn b e H) as (e1 & H1 & N1).
  destruct (IH _ _ _ H1) as (e2 & H2 & N2).
  exists e2. split; [exact H2 | congruence].
Qed.

(** The name of a discovery: its file name with the count the file name
    had at the start of the scan plus its earlier discoveries. *)
Lemma discovery_name self (w : walk) before fpath fname after :
  candidates w = before ++ (fpath, fname) :: after ->
  accepted self fpath = true ->
  (forall fp fn, In (fp, fn) before -> accepted self fp = true ->
                 build_id_of self fp <> build_id_of self fpath) ->
  exists entry,
    Dict.get (build_id_of self fpath)
      (host_build_id_map (collect_native_libs_on_host self w)) = Some entry /\
    name entry
    = unique_name fname
        (count_of self fname + occurrences fname (discoveries self [] before)).
Proof.
  intros C Ac First. unfold collect_native_libs_on_host.
  set (s0 := set_host_build_id_map self []).
  rewrite C, add_all_app. cbn [add_all fold_left].
  fold (add_all (add_native_lib_on_host (add_all s0 before) fpath fname) after).
  set (s1 := add_all s0 before).
  assert (R1 : readelf s1 = readelf self) by exact (add_all_readelf s0 before).
  assert (A1 : need_archs s1 = need_archs self)
    by exact (add_all_need_archs s0 before).
  assert (B1 : build_id_of s1 fpath = build_id_of self fpath)
    by (unfold build_id_of; now rewrite R1).
  assert (G1 : Dict.get (build_id_of self fpath) (host_build_id_map s1) = None).
  { destruct (Dict.get (build_id_of self fpath) (host_build_id_map s1)) eqn:G;
      [exfalso | reflexivity].
    destruct (best_inv_add_all s0 before [] s0) as (_ & _ & _ & Best).
    { repeat split; cbn; intros; (contradiction || discriminate). }
    destruct (Best _ _ G) as (l1 & fp & fn & l2 & E & A & B & _).
    apply (First fp fn); [|exact A | exact B].
    change (In (fp, fn) ([] ++ before)). rewrite E.
    apply in_or_app. right. now left. }
  assert (K1 : count_of s1 fname
               = count_of self fname + occurrences fname (discoveries self [] before)).
  { unfold s1. rewrite (count_of_add_all fname before s0 []) by reflexivity.
    rewrite (discoveries_ext s0 self) by reflexivity. reflexivity. }
  destruct (add_cases s1 fpath fname) as [Ac' | e0 _ G _ | e0 _ G _ | _ _].
  - rewrite (accepted_ext s1 self fpath R1 A1) in Ac'. congruence.
  - rewrite B1 in G. congruence.
  - rewrite B1 in G. congruence.
  - match goal with |- context [add_all ?s after] =>
      destruct (name_kept_add_all after s (build_id_of self fpath)
                  (fresh_entry s1 fpath fname)) as (e' & H' & N')
    end.
    { cbn [host_build_id_map]. rewrite B1. apply get_set_eq. }
    exists e'. split; [exact H'|]. rewrite N'. cbn [fresh_entry name].
    now rewrite K1.
Qed.

End DiscoveryFacts.

(* ===================================================================== *)
(** * Facts about the script's loops                                      *)
(* ===================================================================== *)

Section LoopFacts.

Variable World : Type.
Variable adb_exec : list string -> option string -> World -> adb_result * World.

Abbreviation St := (state World).
Abbreviation check_run := (adb_check_run adb_exec).

Lemma for_each_ext_in {A} (l : list A) (f g : A -> M World unit) :
  (forall x, In x l -> forall s, f x s = g x s) ->
  forall s, for_each l f s = for_each l g s.
Proof.
  induction l as [|x l IH]; intros H s; [reflexivity|].
  cbn [for_each]. unfold bind. rewrite (H x (or_introl eq_refl)).
  destruct (g x s) as [[[]|] s']; [|reflexivity].
  apply IH. intros y Hy. apply H. now right.
Qed.

Lemma for_each_map {A B} (h : A -> B) (l : list A) (f : B -> M World unit) s :
  for_each (map h l) f s = for_each l (fun x => f (h x)) s.
Proof.
  revert s. induction l as [|x l IH]; intros s; [reflexivity|].
  cbn [map for_each]. unfold bind.
  destruct (f (h x) s) as [[[]|] s']; [apply IH | reflexivity].
Qed.

Lemma for_each_filter {A} (p : A -> bool) (l : list A) (f : A -> M World unit) s :
  for_each l (fun x => if p x then f x else ret tt) s = for_each (filter p l) f s.
Proof.
  revert s. induction l as [|x l IH]; intros s; [reflexivity|].
  cbn [filter for_each]. destruct (p x).
  - cbn [for_each]. unfold bind.
    destruct (f x s) as [[[]|] s']; [apply IH | reflexivity].
  - unfold bind at 1, ret at 1. apply IH.
Qed.

(** Iterating over the keys and looking each one up is iterating over
    the items. *)
Lemma for_each_keys {V} (d : dict V) (f : string -> V -> M World unit) s :
  dict_wf d ->
  for_each (keys d)
    (fun k => match Dict.get k d with Some v => f k v | None => stop end) s
  = for_each d (fun kv => f (fst kv) (snd kv)) s.
Proof.
  intros W. unfold keys. rewrite for_each_map.
  apply for_each_ext_in. intros [k v] I s'. cbn [fst snd].
  now rewrite (DictFacts.In_get_Some _ _ _ W I).
Qed.

Lemma check_run_outcome (args : list string) (s : St) :
  exists (ok : bool) s',
    check_run args s = ((if ok then Some tt else None), s') /\
    trace s' = trace s ++ [EvAdb args ok] /\
    (list_file s <> None -> list_file s' <> None).
Proof.
  unfold adb_check_run, bind, adb_run.
  destruct (adb_exec args (list_file s) (world s)) as [r w'].
  exists (adb_ok r).
  exists (mkState w'
            (match adb_fetched r with Some c => Some c | None => list_file s end)
            (trace s ++ [EvAdb args (adb_ok r)])).
  split; [destruct (adb_ok r); reflexivity|].
  split; [reflexivity|]. cbn [list_file].
  destruct (adb_fetched r); [discriminate | trivial].
Qed.

(** A loop of checked commands stops at the first one that fails. *)
Lemma checked_loop (cmds : list (list string)) : forall s : St,
  (exists s', for_each cmds check_run s = (Some tt, s') /\
              trace s' = trace s ++ map (fun c => EvAdb c true) cmds) \/
  (exists s' done c rest,
      for_each cmds check_run s = (None, s') /\
      cmds = done ++ c :: rest /\
      trace s' = trace s ++ map (fun c => EvAdb c true) done ++ [EvAdb c false]).
Proof.
  induction cmds as [|c cmds IH]; intros s.
  - left. exists s. split; [reflexivity | now rewrite app_nil_r].
  - cbn [for_each]. unfold bind.
    destruct (check_run_outcome c s) as (ok & s1 & E & T & _). rewrite E.
    destruct ok.
    + destruct (IH s1) as [(s' & E' & T') | (s' & done & c' & rest & E' & C & T')].
      * left. exists s'. split; [exact E'|].
        rewrite T', T, <- app_assoc. reflexivity.
      * right. exists s', (c :: done), c', rest. split; [exact E'|].
        split; [now rewrite C|].
        rewrite T', T, <- app_assoc. reflexivity.
    + right. exists s1, [], c, cmds. repeat split. exact T.
Qed.

(** A loop of unchecked commands runs to its end. *)
Lemma unchecked_loop {A} (cmd : A -> list string) (l : list A) : forall s : St,
  exists s' evs,
    for_each l (fun x => bind (adb_run adb_exec (cmd x)) (fun _ => ret tt)) s
      = (Some tt, s') /\
    trace s' = trace s ++ evs /\
    Forall2 (fun ev x => exists ok, ev = EvAdb (cmd x) ok) evs l.
Proof.
  induction l as [|x l IH]; intros s.
  - exists s, []. repeat split; [now rewrite app_nil_r | constructor].
  - cbn [for_each]. unfold bind at 1 2, adb_run at 1, ret at 1.
    destruct (adb_exec (cmd x) (list_file s) (world s)) as [r w'].
    match goal with |- context [for_each l _ ?s1] =>
      destruct (IH s1) as (s' & evs & E & T & F) end.
    exists s', (EvAdb (cmd x) (adb_ok r) :: evs). split; [exact E|].
    split.
    + rewrite T. cbn [trace]. now rewrite <- app_assoc.
    + constructor; [now exists (adb_ok r) | exact F].
Qed.

(** The loop of [fh.write] appends the lines. *)
Lemma write_loop (lines : list string) : forall (w : World) c tr,
  for_each lines fh_write (mkState w (Some c) tr)
  = (Some tt, mkState w (Some (c ++ String.concat "" lines)%string) tr).
Proof.
  induction lines as [|x lines IH]; intros w c tr.
  - cbn [for_each String.concat]. unfold ret.
    now rewrite PyStrFacts.append_nil_r.
  - cbn [for_each]. unfold bind, fh_write at 1. cbn [list_file world trace].
    rewrite IH. do 3 f_equal.
    rewrite PyStrFacts.append_assoc. f_equal.
    destruct lines; cbn [String.concat]; [|reflexivity].
    now rewrite PyStrFacts.append_nil_r.
Qed.

End LoopFacts.

(* ===================================================================== *)
(** * Facts about the sync engine                                         *)
(* ===================================================================== *)

Section SyncFacts.

Variable World : Type.
Variable adb_exec : list string -> option string -> World -> adb_result * World.

Abbreviation sync := (sync_natives_libs_on_device adb_exec).

Lemma push_phase (host : dict HostElfEntry) (device : dict string) s :
  dict_wf host ->
  for_each (keys host) (fun build_id =>
    if negb (mem build_id device) then
      match Dict.get build_id host with
      | Some entry => adb_check_run adb_exec (push_command entry)
      | None => stop
      end
    else ret tt) s
  = for_each (map push_command (missing_on_device host device))
      (adb_check_run adb_exec) s.
Proof.
  intros W. unfold keys, missing_on_device.
  rewrite !for_each_map, <- for_each_filter.
  apply for_each_ext_in. intros [b e] I s'. cbn [fst snd].
  now rewrite (DictFacts.In_get_Some _ _ _ W I).
Qed.

Lemma prune_phase (host : dict HostElfEntry) (device : dict string) s :
  dict_wf device ->
  for_each (keys device) (fun build_id =>
    if negb (mem build_id host) then
      match Dict.get build_id device with
      | Some stored =>
          bind (adb_run adb_exec (rm_command stored)) (fun _ => ret tt)
      | None => stop
      end
    else ret tt) s
  = for_each (stale_on_device host device)
      (fun stored => bind (adb_run adb_exec (rm_command stored)) (fun _ => ret tt)) s.
Proof.
  intros W. unfold keys, stale_on_device.
  rewrite !for_each_map, <- for_each_filter.
  apply for_each_ext_in. intros [b n] I s'. cbn [fst snd].
  now rewrite (DictFacts.In_get_Some _ _ _ W I).
Qed.

Lemma write_phase (host : dict HostElfEntry) (w : World) c tr :
  dict_wf host ->
  for_each (keys host) (fun build_id =>
    match Dict.get build_id host with
    | Some entry => fh_write (list_line build_id (name entry))
    | None => stop
    end) (mkState w (Some c) tr)
  = (Some tt,
     mkState w (Some (c ++ serialize_manifest (manifest_of host))%string) tr).
Proof.
  intros W.
  rewrite (for_each_keys World host
             (fun b e => fh_write (list_line b (name e))) _ W).
  rewrite <- (for_each_map World
                (fun kv : string * HostElfEntry => list_line (fst kv) (name (snd kv)))
                host fh_write).
  rewrite write_loop. unfold serialize_manifest, manifest_of.
  now rewrite map_map.
Qed.

(** Every run of the sync ends in one of the three outcomes. *)
Lemma sync_run (self : NativeLibDownloader) (s : state World) :
  dict_wf (host_build_id_map self) -> dict_wf (device_build_id_map self) ->
  exists r s' tr,
    sync self s = (r, s') /\ trace s' = trace s ++ tr /\
    sync_outcome (host_build_id_map self) (device_build_id_map self) r tr.
Proof.
  intros Wh Wd. unfold sync_natives_libs_on_device.
  set (host := host_build_id_map self) in *.
  set (device := device_build_id_map self) in *.
  unfold bind at 1. rewrite push_phase by exact Wh.
  destruct (checked_loop World adb_exec
              (map push_command (missing_on_device host device)) s)
    as [(s1 & E1 & T1) | (s1 & done & c & rest & E1 & C & T1)]; rewrite E1.
  2:{ (* a library push failed *)
    apply map_eq_app in C. destruct C as (d' & r' & M & D & R).
    destruct r' as [|e r']; [discriminate|]. cbn [map] in R.
    injection R as <- _. subst done.
    exists None, s1, (map pushed d' ++ [EvAdb (push_command e) false]).
    split; [reflexivity|]. split.
    - rewrite T1, map_map. reflexivity.
    - now apply (sync_push_failed host device d' e r'). }
  rewrite map_map in T1.
  unfold bind at 1. rewrite prune_phase by exact Wd.
  destruct (unchecked_loop World adb_exec rm_command
              (stale_on_device host device) s1) as (s2 & rms & E2 & T2 & F2).
  rewrite E2.
  unfold bind at 1, open_w at 1.
  unfold bind at 1. rewrite write_phase by exact Wh.
  unfold bind at 1, fh_close at 1. cbn [list_file world trace append].
  unfold bind at 1.
  match goal with |- context [adb_check_run adb_exec ?a ?st] =>
    destruct (check_run_outcome World adb_exec a st) as (ok & s3 & E3 & T3 & L3)
  end.
  rewrite E3. cbn [trace list_file] in T3, L3.
  destruct ok.
  - (* the list was pushed *)
    unfold os_remove.
    destruct (list_file s3) eqn:L; [|exfalso; apply L3; [discriminate | reflexivity]].
    eexists (Some tt), _, _. split; [reflexivity|]. split.
    + cbn [trace]. rewrite T3, T2, T1, <- !app_assoc. reflexivity.
    + now apply sync_done.
  - eexists None, s3, _. split; [reflexivity|]. split.
    + rewrite T3, T2, T1, <- !app_assoc. reflexivity.
    + now apply sync_list_push_failed.
Qed.

End SyncFacts.

(* ===================================================================== *)
(** * Facts about the manifest format                                     *)
(* ===================================================================== *)

Module ParseFacts.

Import PyStrFacts DictFacts.
Local Open Scope string_scope.

Lemma isspace_LF v : isspace v LF = true.
Proof. destruct v; reflexivity. Qed.

Lemma isspace_EQ v : isspace v EQ = false.
Proof. destruct v; reflexivity. Qed.

Lemma split_nonempty sep s : split sep s <> [].
Proof.
  destruct s as [|c s]; cbn [split]; [discriminate|].
  destruct (Ascii.eqb c sep); [discriminate|].
  destruct (split sep s); discriminate.
Qed.

Lemma split_length sep s : length (split sep s) = S (count_char sep s).
Proof.
  induction s as [|c s IH]; cbn [split count_char]; [reflexivity|].
  destruct (Ascii.eqb c sep); cbn [length].
  - now rewrite IH.
  - destruct (split sep s) eqn:E; cbn [length] in *; [discriminate | exact IH].
Qed.

Lemma split_none sep s : contains sep s = false -> split sep s = [s].
Proof.
  induction s as [|c s IH]; cbn [split contains]; [reflexivity|].
  intros H. apply orb_false_iff in H. destruct H as [H1 H2].
  rewrite H1, (IH H2). reflexivity.
Qed.

Lemma split_app sep a rest :
  contains sep a = false ->
  split sep (a ++ String sep rest) = a :: split sep rest.
Proof.
  induction a as [|c a IH]; cbn [append split contains].
  - now rewrite Ascii.eqb_refl.
  - intros H. apply orb_false_iff in H. destruct H as [H1 H2].
    rewrite H1, (IH H2). reflexivity.
Qed.

Lemma count_char_app c a b :
  count_char c (a ++ b) = count_char c a + count_char c b.
Proof.
  induction a as [|x a IH]; cbn [append count_char]; [reflexivity|].
  rewrite IH. lia.
Qed.

Lemma count_char_none c s : contains c s = false <-> count_char c s = 0.
Proof.
  induction s as [|x s IH]; cbn [contains count_char]; [tauto|].
  destruct (Ascii.eqb x c); cbn [orb].
  - split; [discriminate | lia].
  - exact IH.
Qed.

(** A string with exactly one separator is a key, the separator and a
    name, neither of which has a separator. *)
Lemma count_one sep s :
  count_char sep s = 1 ->
  exists a b, s = a ++ String sep b /\
              contains sep a = false /\ contains sep b = false.
Proof.
  induction s as [|c s IH]; cbn [count_char]; [discriminate|].
  destruct (Ascii.eqb_spec c sep) as [->|N]; intros H.
  - exists "", s. repeat split. apply count_char_none. lia.
  - destruct (IH H) as (a & b & -> & Ha & Hb).
    exists (String c a), b. repeat split; [|exact Hb].
    cbn [contains]. rewrite Ha.
    destruct (Ascii.eqb_spec c sep); [contradiction | reflexivity].
Qed.

Lemma lstrip_id v s :
  match first_char s with Some c => isspace v c = false | None => True end ->
  lstrip v s = s.
Proof. destruct s as [|c s]; cbn; [reflexivity | now intros ->]. Qed.

Lemma rstrip_id v s :
  match last_char s with Some c => isspace v c = false | None => True end ->
  rstrip v s = s.
Proof.
  induction s as [|c s IH]; cbn [rstrip last_char]; [reflexivity|].
  destruct s as [|c' s].
  - cbn [rstrip]. now intros ->.
  - intros H. rewrite (IH H). reflexivity.
Qed.

Lemma rstrip_app_blank v a b : rstrip v b = "" -> rstrip v (a ++ b) = rstrip v a.
Proof.
  intros H. induction a as [|c a IH]; cbn [append rstrip]; [exact H|].
  now rewrite IH.
Qed.

Lemma rstrip_app_solid v a b :
  rstrip v b <> "" -> rstrip v (a ++ b) = a ++ rstrip v b.
Proof.
  intros H. induction a as [|c a IH]; cbn [append rstrip]; [reflexivity|].
  rewrite IH. destruct (a ++ rstrip v b) eqn:E; [|reflexivity].
  destruct a; cbn [append] in E; [contradiction | discriminate].
Qed.

(** What [strip] and [split] make of a written line. *)
Lemma strip_list_line v k n :
  format_safe v k n = true -> strip v (list_line k n) = k ++ String EQ n.
Proof.
  unfold format_safe. rewrite !andb_true_iff, !negb_true_iff.
  intros [[[[[[[_ _] _] _] _] _] Hk] Hn].
  unfold strip, list_line.
  change ("=" ++ n ++ String LF "") with (String EQ (n ++ String LF "")).
  rewrite lstrip_id.
  2:{ destruct k as [|c k]; cbn [append first_char] in *.
      - apply isspace_EQ.
      - now apply negb_true_iff. }
  assert (R : rstrip v (String EQ (n ++ String LF "")) = String EQ n).
  { cbn [rstrip]. rewrite rstrip_app_blank.
    2:{ cbn [rstrip]. now rewrite isspace_LF. }
    rewrite rstrip_id.
    2:{ destruct (last_char n); [now apply negb_true_iff | trivial]. }
    rewrite isspace_EQ. now destruct n. }
  rewrite rstrip_app_solid; rewrite R; [reflexivity | discriminate].
Qed.

Lemma read_list_line v m k n :
  format_safe v k n = true -> read_line v m (list_line k n) = Dict.set k n m.
Proof.
  intros H. unfold read_line. rewrite (strip_list_line _ _ _ H).
  unfold format_safe in H. rewrite !andb_true_iff, !negb_true_iff in H.
  destruct H as [[[[[[[Hk Hn] _] _] _] _] _] _].
  rewrite split_app by exact Hk. rewrite split_none by exact Hn. reflexivity.
Qed.

Lemma concat_cons (x : string) (l : list string) :
  String.concat "" (x :: l) = x ++ String.concat "" l.
Proof.
  destruct l; cbn [String.concat append]; [now rewrite append_nil_r | reflexivity].
Qed.

Lemma cut_lines_line body rest :
  contains LF body = false ->
  cut_lines (body ++ String LF rest) = (body ++ String LF "") :: cut_lines rest.
Proof.
  induction body as [|c b IH]; cbn [append cut_lines contains].
  - now rewrite Ascii.eqb_refl.
  - intros H. apply orb_false_iff in H. destruct H as [H1 H2].
    rewrite H1, (IH H2). reflexivity.
Qed.

Lemma translate_newlines_id s :
  contains CR s = false -> translate_newlines s = s.
Proof.
  induction s as [|c s IH]; cbn [translate_newlines contains]; [reflexivity|].
  intros H. apply orb_false_iff in H. destruct H as [H1 H2].
  rewrite H1, (IH H2). reflexivity.
Qed.



Lemma list_line_plain v k n c :
  format_safe v k n = true -> (c = LF \/ c = CR) ->
  contains c (k ++ String EQ n) = false.
Proof.
  unfold format_safe. rewrite !andb_true_iff, !negb_true_iff.
  intros [[[[[[[_ _] Lk] Ln] Ck] Cn] _] _] [->| ->];
    rewrite contains_app; cbn [contains].
  - rewrite Lk, Ln. reflexivity.
  - rewrite Ck, Cn. reflexivity.
Qed.

Lemma list_line_split k n : list_line k n = (k ++ String EQ n) ++ String LF "".
Proof. unfold list_line. now rewrite append_assoc. Qed.

Lemma serialize_no_CR v m :
  (forall k n, In (k, n) m -> format_safe v k n = true) ->
  contains CR (serialize_manifest m) = false.
Proof.
  unfold serialize_manifest. induction m as [|[k n] m IH]; intros S; [reflexivity|].
  cbn [map]. rewrite concat_cons, contains_app. cbn [fst snd].
  rewrite IH by (intros; apply S; now right).
  rewrite list_line_split, contains_app.
  rewrite (list_line_plain v) by (auto; apply S; now left). reflexivity.
Qed.

Lemma cut_lines_serialize v m :
  (forall k n, In (k, n) m -> format_safe v k n = true) ->
  cut_lines (serialize_manifest m) = map line_of m.
Proof.
  unfold serialize_manifest. induction m as [|[k n] m IH]; intros S; [reflexivity|].
  cbn [map]. rewrite concat_cons. change (line_of (k, n)) with (list_line k n).
  cbn [fst snd]. rewrite list_line_split, append_assoc. cbn [append].
  rewrite cut_lines_line by (apply (list_line_plain v); auto; apply S; now left).
  rewrite IH by (intros; apply S; now right). reflexivity.
Qed.

Lemma readlines_serialize v m :
  (forall k n, In (k, n) m -> format_safe v k n = true) ->
  readlines v (serialize_manifest m) = map line_of m.
Proof.
  intros S. destruct v; cbn [readlines].
  - now apply (cut_lines_serialize Py2).
  - rewrite translate_newlines_id by now apply (serialize_no_CR Py3).
    now apply (cut_lines_serialize Py3).
Qed.

Lemma read_written_lines v m : forall acc,
  (forall k n, In (k, n) m -> format_safe v k n = true) ->
  fold_left (read_line v) (map line_of m) acc
  = fold_left (fun a item => Dict.set (fst item) (snd item) a) m acc.
Proof.
  induction m as [|[k n] m IH]; intros acc S; [reflexivity|].
  cbn [map fold_left]. change (line_of (k, n)) with (list_line k n).
  rewrite read_list_line by (apply S; now left).
  apply IH. intros; apply S; now right.
Qed.

Lemma set_all_fresh {V} (m : dict V) : forall acc : dict V,
  NoDup (keys acc ++ keys m)%list ->
  fold_left (fun a item => Dict.set (fst item) (snd item) a) m acc
  = (acc ++ m)%list.
Proof.
  induction m as [|[k n] m IH]; intros acc N; cbn [fold_left fst snd].
  - now rewrite app_nil_r.
  - assert (G : Dict.get k acc = None).
    { apply get_None_keys. intros I.
      apply NoDup_remove_2 in N. apply N. apply in_or_app. now left. }
    rewrite (set_absent _ _ _ G), IH.
    + now rewrite <- app_assoc.
    + unfold keys in *. rewrite map_app, <- app_assoc. exact N.
Qed.

(** What a sync writes for a host registry whose build ids and names the
    format carries is read back as the registry's mapping. *)
Lemma written_list_is_read_back v (host : dict HostElfEntry) :
  dict_wf host ->
  (forall b e, In (b, e) host -> format_safe v b (name e) = true) ->
  read_build_id_list v (serialize_manifest (manifest_of host)) []
  = manifest_of host.
Proof.
  intros W S. unfold read_build_id_list.
  assert (S' : forall k n, In (k, n) (manifest_of host) -> format_safe v k n = true).
  { intros k n I. unfold manifest_of in I. apply in_map_iff in I.
    destruct I as [[b e] [E I]]. injection E as <- <-. now apply (S b e). }
  rewrite readlines_serialize by exact S'.
  rewrite read_written_lines by exact S'.
  rewrite set_all_fresh; [reflexivity|].
  cbn [keys map app]. unfold dict_wf, keys, manifest_of in *.
  rewrite map_map. cbn [fst]. exact W.
Qed.

End ParseFacts.

(* ===================================================================== *)
(** * Facts about the remote registry reader                              *)
(* ===================================================================== *)

Section ReaderRun.

Variable World : Type.
Variable adb_exec : list string -> option string -> World -> adb_result * World.
Variable decode : string -> option string.

(** Every run of the reader: it stops when the directory cannot be made;
    otherwise it removes a local list, pulls, and reads what the pull
    fetched, which stops it when the bytes cannot be decoded. *)
Lemma reader_run (v : python) (self : NativeLibDownloader) (w : World)
    (f : option string) :
  let made := adb_exec mkdir_command f w in
  let local := match adb_fetched (fst made) with Some c => Some c | None => f end in
  let fetched := adb_exec pull_command None (snd made) in
  let after :=
    mkState (snd fetched) (adb_fetched (fst fetched))
      (EvAdb mkdir_command true ::
       match local with Some _ => [EvRemove build_id_list_file] | None => [] end ++
       [EvAdb pull_command (adb_ok (fst fetched))]) in
  run (collect_native_libs_on_device adb_exec decode v self) w f
  = if adb_ok (fst made) then
      match adb_fetched (fst fetched) with
      | Some bytes =>
          match text_of decode v bytes with
          | Some text =>
              (Some (set_device_build_id_map self (read_build_id_list v text [])),
               after)
          | None => (None, after)
          end
      | None => (Some (set_device_build_id_map self []), after)
      end
    else (None, mkState (snd made) local [EvAdb mkdir_command false]).
Proof.
  unfold run, collect_native_libs_on_device, bind, adb_check_run, bind,
    adb_run, ret, stop, os_path_exists, os_remove, fh_read,
    mkdir_command, pull_command.
  cbv beta iota zeta. cbn [world list_file trace app].
  destruct (adb_exec ["shell"; "mkdir"; "-p"; dir_on_device] f w) as [r1 w1].
  cbn [fst snd]. destruct (adb_ok r1); [|reflexivity].
  destruct (adb_fetched r1) as [c1|]; [|destruct f as [c0|]];
    cbv beta iota zeta; cbn [world list_file trace app];
    destruct (adb_exec ["pull"; on_device build_id_list_file] None w1) as [r2 w2];
    cbn [fst snd]; destruct (adb_fetched r2) as [bytes|]; try reflexivity;
    cbv beta iota zeta; cbn [world list_file trace app];
    destruct (text_of decode v bytes); reflexivity.
Qed.

(** The events of a reader are the [mkdir], the removal of the local list
    and the [pull]. *)
Lemma reader_events (f : option string) (ok : bool) (ev : event) :
  In ev (EvAdb mkdir_command true ::
         match f with Some _ => [EvRemove build_id_list_file] | None => [] end ++
         [EvAdb pull_command ok]) ->
  forall args ok', ev = EvAdb args ok' -> args = mkdir_command \/ args = pull_command.
Proof.
  intros [<-|J] args ok' Ev; [injection Ev as <- _; now left|].
  apply in_app_or in J. destruct J as [J|[<-|[]]].
  - destruct f; [destruct J as [<-|[]]; discriminate | destruct J].
  - injection Ev as <- _. now right.
Qed.

End ReaderRun.

(* ===================================================================== *)
(** * The host scanner: scores, best files, names, architectures         *)
(* ===================================================================== *)

Section ScannerClaims.

Import DictFacts PyStrFacts ScanFacts NameFacts BestFacts DiscoveryFacts.

(** C6.  The score of a scanned file follows the ordered policy on its
    section list: 3 when [.debug_info] is present; otherwise 2 when
    [.gnu_debugdata] is present; otherwise 1 when [.symtab] is present;
    otherwise 0.  It is the score stored with the entry that a new build
    id gets. *)
Theorem score_policy (self : NativeLibDownloader) (fpath fname : string) :
  accepted self fpath = true ->
  Dict.get (build_id_of self fpath) (host_build_id_map self) = None ->
  let sections := get_sections (readelf self) fpath in
  let self' := add_native_lib_on_host self fpath fname in
  exists entry,
    Dict.get (build_id_of self fpath) (host_build_id_map self') = Some entry /\
    score entry = score_of self fpath /\
    (In ".debug_info" sections -> score entry = 3) /\
    (~ In ".debug_info" sections -> In ".gnu_debugdata" sections ->
     score entry = 2) /\
    (~ In ".debug_info" sections -> ~ In ".gnu_debugdata" sections ->
     In ".symtab" sections -> score entry = 1) /\
    (~ In ".debug_info" sections -> ~ In ".gnu_debugdata" sections ->
     ~ In ".symtab" sections -> score entry = 0).
Proof.
  intros A G sections self'. subst self'.
  destruct (add_cases self fpath fname) as [A' | e0 _ G' _ | e0 _ G' _ | _ _];
    try congruence.
  exists (fresh_entry self fpath fname). cbn [host_build_id_map].
  split; [apply get_set_eq|]. split; [reflexivity|].
  cbn [fresh_entry score]. unfold score_of, compute_score. fold sections.
  repeat split.
  - intros H. apply str_in_In in H. now rewrite H.
  - intros N1 H. apply str_in_false in N1. apply str_in_In in H.
    now rewrite N1, H.
  - intros N1 N2 H. apply str_in_false in N1, N2. apply str_in_In in H.
    now rewrite N1, N2, H.
  - intros N1 N2 N3. apply str_in_false in N1, N2, N3.
    now rewrite N1, N2, N3.
Qed.

(** C7.  A file whose build id is already in the registry replaces the
    path and the score of the entry exactly when its score is strictly
    higher, and never the name; a file with a new build id creates an
    entry.  After a scan, the entry of a build id has the path and the
    score of the first accepted file of highest score with that build id,
    whatever the order of discovery. *)
Theorem keep_higher_score (self : NativeLibDownloader) :
  (forall fpath fname,
     accepted self fpath = true ->
     let b := build_id_of self fpath in
     let self' := add_native_lib_on_host self fpath fname in
     (forall old, Dict.get b (host_build_id_map self) = Some old ->
        exists entry,
          Dict.get b (host_build_id_map self') = Some entry /\
          name entry = name old /\
          (score old < score_of self fpath ->
           path entry = fpath /\ score entry = score_of self fpath) /\
          (score_of self fpath <= score old -> entry = old)) /\
     (Dict.get b (host_build_id_map self) = None ->
        Dict.get b (host_build_id_map self') = Some (fresh_entry self fpath fname)) /\
     (forall b', b' <> b ->
        Dict.get b' (host_build_id_map self') = Dict.get b' (host_build_id_map self))) /\
  (forall (w : walk) b entry,
     Dict.get b (host_build_id_map (collect_native_libs_on_host self w)) = Some entry ->
     exists before fpath fname after,
       candidates w = before ++ (fpath, fname) :: after /\
       accepted self fpath = true /\ build_id_of self fpath = b /\
       path entry = fpath /\ score entry = score_of self fpath /\
       (forall fp fn, In (fp, fn) before -> accepted self fp = true ->
                      build_id_of self fp = b -> score_of self fp < score entry) /\
       (forall fp fn, In (fp, fn) after -> accepted self fp = true ->
                      build_id_of self fp = b -> score_of self fp <= score entry)).
Proof.
  split.
  - intros fpath fname A b self'. subst b self'.
    destruct (add_cases self fpath fname) as [A' | e0 _ G L | e0 _ G L | _ G];
      try congruence.
    + (* replaced *)
      cbn [set_host_build_id_map host_build_id_map]. repeat split.
      * intros old H. rewrite G in H. injection H as <-.
        eexists. split; [apply get_set_eq|]. cbn [name path score].
        repeat split. lia.
      * congruence.
      * intros b' N. apply get_set_ne. congruence.
    + (* kept *)
      repeat split.
      * intros old H. rewrite G in H. injection H as <-.
        exists e0. repeat split; try assumption; lia.
      * congruence.
    + (* created *)
      cbn [host_build_id_map]. repeat split.
      * congruence.
      * intros _. apply get_set_eq.
      * intros b' N. apply get_set_ne. congruence.
  - intros w b entry H.
    destruct (best_inv_collect self w) as (_ & _ & _ & Best).
    exact (Best _ _ H).
Qed.

(** C9.  After a scan, two entries with different build ids have
    different names.  A new build id found under a file name that has
    been counted [c] times gets the file name itself when [c] is 0 and
    the file name followed by [_c] otherwise, and the count of the file
    name grows by one; no other file changes a count.  So in a scan the
    entry of a build id is named after the file that discovered it, with
    the suffix that counts the earlier discoveries under the same file
    name (on top of the count the scanner started with, 0 for a new
    scanner). *)
Theorem names_unique (self : NativeLibDownloader) :
  (forall (w : walk) b1 b2 e1 e2,
     let registry := host_build_id_map (collect_native_libs_on_host self w) in
     b1 <> b2 -> Dict.get b1 registry = Some e1 -> Dict.get b2 registry = Some e2 ->
     name e1 <> name e2) /\
  (forall fpath fname,
     accepted self fpath = true ->
     Dict.get (build_id_of self fpath) (host_build_id_map self) = None ->
     let c := count_of self fname in
     let self' := add_native_lib_on_host self fpath fname in
     exists entry,
       Dict.get (build_id_of self fpath) (host_build_id_map self') = Some entry /\
       name entry = (if Nat.eqb c 0 then fname
                     else (fname ++ "_" ++ str_of_nat c)%string) /\
       count_of self' fname = c + 1) /\
  (forall fpath fname,
     accepted self fpath = false \/
     Dict.get (build_id_of self fpath) (host_build_id_map self) <> None ->
     name_count_map (add_native_lib_on_host self fpath fname)
     = name_count_map self) /\
  (forall (w : walk) before fpath fname after,
     candidates w = before ++ (fpath, fname) :: after ->
     accepted self fpath = true ->
     (forall fp fn, In (fp, fn) before -> accepted self fp = true ->
                    build_id_of self fp <> build_id_of self fpath) ->
     let k := count_of self fname
              + occurrences fname (discoveries self [] before) in
     exists entry,
       Dict.get (build_id_of self fpath)
         (host_build_id_map (collect_native_libs_on_host self w)) = Some entry /\
       name entry = (if Nat.eqb k 0 then fname
                     else (fname ++ "_" ++ str_of_nat k)%string)).
Proof.
  split; [|split; [|split]]; [| | |exact (discovery_name self)].
  - intros w b1 b2 e1 e2 registry N H1 H2.
    destruct (names_inv_collect self w) as [_ I2].
    exact (I2 _ _ _ _ N H1 H2).
  - intros fpath fname A G c self'. subst c self'.
    destruct (add_cases self fpath fname) as [A' | e0 _ G' _ | e0 _ G' _ | _ _];
      try congruence.
    exists (fresh_entry self fpath fname). cbn [host_build_id_map].
    split; [apply get_set_eq|]. split; [reflexivity|].
    rewrite count_of_set, String.eqb_refl. reflexivity.
  - intros fpath fname H.
    destruct (add_cases self fpath fname) as [A' | e0 _ G' _ | e0 _ G' _ | A G];
      try reflexivity.
    destruct H as [H|H]; congruence.
Qed.

(** C10.  For a device architecture other than arm, arm64, x86 and
    x86_64 the needed architectures are empty, and a scanner built for it
    collects an empty registry from every directory. *)
Theorem unknown_arch_collects_nothing (re : ReadElf) (device_arch : string)
    (self : NativeLibDownloader) (w : walk) :
  device_arch <> "arm" -> device_arch <> "arm64" ->
  device_arch <> "x86" -> device_arch <> "x86_64" ->
  need_archs self = _get_need_archs device_arch ->
  _get_need_archs device_arch = [] /\
  need_archs (init re device_arch) = [] /\
  host_build_id_map (collect_native_libs_on_host (init re device_arch) w) = [] /\
  host_build_id_map (collect_native_libs_on_host self w) = [].
Proof.
  intros N1 N2 N3 N4 E.
  assert (Z : _get_need_archs device_arch = []).
  { unfold _get_need_archs.
    repeat match goal with
           | |- context [String.eqb ?a ?b] =>
               destruct (String.eqb_spec a b); [congruence|]
           end.
    reflexivity. }
  assert (Empty : forall s l, need_archs s = [] -> host_build_id_map s = [] ->
                              host_build_id_map (add_all s l) = []).
  { intros s l. revert s. induction l as [|[fp fn] l IH]; intros s Hn Hh; [exact Hh|].
    cbn [add_all fold_left]. fold (add_all (add_native_lib_on_host s fp fn) l).
    assert (Same : add_native_lib_on_host s fp fn = s).
    { destruct (add_cases s fp fn) as [A | e0 A _ _ | e0 A _ _ | A _];
        try reflexivity;
        unfold accepted in A; rewrite Hn in A; cbn [str_in existsb] in A;
        rewrite andb_false_r in A; discriminate. }
    rewrite Same. now apply IH. }
  split; [exact Z|]. split; [exact Z|]. split.
  - apply Empty; [exact Z | reflexivity].
  - apply Empty; [cbn; congruence | reflexivity].
Qed.

(** The two scanned files of build id A1: the entry has score 3. *)
Lemma score_policy_witness :
  accepted Fixture.fresh "/libs/subdir/libfoo.so" = true /\
  Dict.get "A1" (host_build_id_map Fixture.fresh) = None /\
  exists entry,
    Dict.get "A1"
      (host_build_id_map
         (add_native_lib_on_host Fixture.fresh "/libs/subdir/libfoo.so" "libfoo.so"))
    = Some entry /\ score entry = 3.
Proof.
  split; [reflexivity|]. split; [reflexivity|].
  destruct (score_policy Fixture.fresh "/libs/subdir/libfoo.so" "libfoo.so"
              eq_refl eq_refl) as (entry & G & _ & D & _).
  exists entry. split; [exact G|]. apply D. cbn. auto.
Defined.

(** Scanning /libs ends with the path of the richer file of A1. *)
Lemma keep_higher_score_witness :
  Dict.get "A1" (host_build_id_map Fixture.scanned)
  = Some {| path := "/libs/subdir/libfoo.so"; name := "libfoo.so"; score := 3 |} /\
  exists before fname after,
    candidates Fixture.libs
    = before ++ ("/libs/subdir/libfoo.so", fname) :: after.
Proof.
  split; [reflexivity|].
  destruct (proj2 (keep_higher_score Fixture.fresh) Fixture.libs "A1" _ eq_refl)
    as (before & fpath & fname & after & C & _ & _ & P & _).
  cbn [path] in P. subst fpath. now exists before, fname, after.
Defined.

(** The entries of X and Y, both found as liba.so, have different names. *)
Lemma names_unique_witness :
  "X" <> "Y" /\
  Dict.get "X" (host_build_id_map Fixture.scanned)
  = Some {| path := "/libs/liba.so"; name := "liba.so"; score := 1 |} /\
  Dict.get "Y" (host_build_id_map Fixture.scanned)
  = Some {| path := "/libs/subdir/liba.so"; name := "liba.so_1"; score := 2 |} /\
  "liba.so" <> "liba.so_1".
Proof.
  assert (N : "X" <> "Y") by discriminate.
  split; [exact N|]. split; [reflexivity|]. split; [reflexivity|].
  exact (proj1 (names_unique Fixture.fresh) Fixture.libs "X" "Y" _ _ N
           eq_refl eq_refl).
Defined.

(** A mips device needs nothing and collects nothing from /libs. *)
Lemma unknown_arch_collects_nothing_witness :
  _get_need_archs "mips" = [] /\
  host_build_id_map
    (collect_native_libs_on_host (init Fixture.elf "mips") Fixture.libs) = [].
Proof.
  assert (N1 : "mips" <> "arm") by discriminate.
  assert (N2 : "mips" <> "arm64") by discriminate.
  assert (N3 : "mips" <> "x86") by discriminate.
  assert (N4 : "mips" <> "x86_64") by discriminate.
  destruct (unknown_arch_collects_nothing Fixture.elf "mips"
              (init Fixture.elf "mips") Fixture.libs N1 N2 N3 N4 eq_refl)
    as (Z & _ & E & _).
  split; [exact Z | exact E].
Defined.

(** A scan depends on the scanner only through readelf, the needed
    architectures and the name counts it starts with. *)
Lemma collect_depends_on_counts (s1 s2 : NativeLibDownloader) (w : walk) :
  readelf s1 = readelf s2 -> need_archs s1 = need_archs s2 ->
  name_count_map s1 = name_count_map s2 ->
  host_build_id_map (collect_native_libs_on_host s1 w)
  = host_build_id_map (collect_native_libs_on_host s2 w) /\
  name_count_map (collect_native_libs_on_host s1 w)
  = name_count_map (collect_native_libs_on_host s2 w).
Proof.
  intros R A C. unfold collect_native_libs_on_host.
  assert (Step : forall l t1 t2,
             readelf t1 = readelf t2 -> need_archs t1 = need_archs t2 ->
             host_build_id_map t1 = host_build_id_map t2 ->
             name_count_map t1 = name_count_map t2 ->
             host_build_id_map (add_all t1 l) = host_build_id_map (add_all t2 l) /\
             name_count_map (add_all t1 l) = name_count_map (add_all t2 l)).
  { induction l as [|[fp fn] l IH]; intros t1 t2 R' A' H' C'; [now split|].
    cbn [add_all fold_left].
    fold (add_all (add_native_lib_on_host t1 fp fn) l).
    fold (add_all (add_native_lib_on_host t2 fp fn) l).
    destruct t1 as [r1 a1 h1 d1 c1], t2 as [r2 a2 h2 d2 c2].
    cbn [readelf need_archs host_build_id_map name_count_map] in R', A', H', C'.
    subst r2 a2 h2 c2.
    apply IH; unfold add_native_lib_on_host;
      cbn [readelf need_archs host_build_id_map name_count_map
           device_build_id_map set_host_build_id_map];
      repeat match goal with
             | |- context [if ?c then _ else _] => destruct c
             | |- context [match Dict.get ?k ?d with _ => _ end] =>
                 destruct (Dict.get k d)
             end; reflexivity. }
  apply Step; assumption || reflexivity.
Qed.

(** C5.  The scanner object that has scanned /libs scans it again in the
    same order and assigns other names: [collect_native_libs_on_host]
    clears [host_build_id_map] and keeps [name_count_map], so the second
    scan goes on counting where the first one stopped. *)
Theorem rescan_renames :
  map (fun item => (fst item, name (snd item)))
      (host_build_id_map Fixture.scanned)
  = [("A1", "libfoo.so"); ("X", "liba.so"); ("Y", "liba.so_1")] /\
  map (fun item => (fst item, name (snd item)))
      (host_build_id_map Fixture.rescanned)
  = [("A1", "libfoo.so_1"); ("X", "liba.so_2"); ("Y", "liba.so_3")] /\
  name_count_map Fixture.scanned = [("libfoo.so", 1); ("liba.so", 2)].
Proof. repeat split; reflexivity. Qed.

End ScannerClaims.

(* ===================================================================== *)
(** * The sync engine: what is pushed, pruned and written                 *)
(* ===================================================================== *)

Section SyncClaims.

Import DictFacts ParseFacts.

Variable World : Type.
Variable adb_exec : list string -> option string -> World -> adb_result * World.
Variable decode : string -> option string.

Lemma get_manifest_of (host : dict HostElfEntry) (b : string) :
  Dict.get b (manifest_of host) = option_map name (Dict.get b host).
Proof.
  unfold manifest_of. induction host as [|[k e] host IH]; [reflexivity|].
  cbn [map Dict.get fst snd]. destruct (String.eqb b k); [reflexivity | exact IH].
Qed.

Lemma keys_manifest_of (host : dict HostElfEntry) :
  keys (manifest_of host) = keys host.
Proof.
  unfold keys, manifest_of. rewrite map_map. apply map_ext. now intros [k e].
Qed.

Lemma In_missing (host : dict HostElfEntry) (device : dict string) entry :
  dict_wf host ->
  In entry (missing_on_device host device) <->
  exists b, Dict.get b host = Some entry /\ Dict.get b device = None.
Proof.
  intros W. unfold missing_on_device. rewrite in_map_iff. split.
  - intros [[b e] [E I]]. cbn [snd] in E. subst e.
    apply filter_In in I. destruct I as [I M]. cbn [fst] in M.
    exists b. split; [now apply In_get_Some|].
    apply mem_false_iff. now apply negb_true_iff.
  - intros [b [G M]]. exists (b, entry). split; [reflexivity|].
    apply filter_In. split; [now apply get_Some_In|].
    cbn [fst]. apply negb_true_iff. now apply mem_false_iff.
Qed.

Lemma In_stale (host : dict HostElfEntry) (device : dict string) stored :
  dict_wf device ->
  In stored (stale_on_device host device) <->
  exists b, Dict.get b device = Some stored /\ Dict.get b host = None.
Proof.
  intros W. unfold stale_on_device. rewrite in_map_iff. split.
  - intros [[b n] [E I]]. cbn [snd] in E. subst n.
    apply filter_In in I. destruct I as [I M]. cbn [fst] in M.
    exists b. split; [now apply In_get_Some|].
    apply mem_false_iff. now apply negb_true_iff.
  - intros [b [G M]]. exists (b, stored). split; [reflexivity|].
    apply filter_In. split; [now apply get_Some_In|].
    cbn [fst]. apply negb_true_iff. now apply mem_false_iff.
Qed.

Lemma filter_nothing {A} (p : A -> bool) (l : list A) :
  (forall x, In x l -> p x = false) -> filter p l = [].
Proof.
  induction l as [|x l IH]; intros H; [reflexivity|].
  cbn [filter]. rewrite (H x (or_introl eq_refl)).
  apply IH. intros y Hy. apply H. now right.
Qed.

Lemma nothing_missing (host : dict HostElfEntry) :
  missing_on_device host (manifest_of host) = [].
Proof.
  unfold missing_on_device. rewrite filter_nothing; [reflexivity|].
  intros [b e] I. cbn [fst]. apply negb_false_iff. apply mem_true_iff.
  rewrite keys_manifest_of. eapply In_keys; eassumption.
Qed.

Lemma nothing_stale (host : dict HostElfEntry) :
  stale_on_device host (manifest_of host) = [].
Proof.
  unfold stale_on_device. rewrite filter_nothing; [reflexivity|].
  intros [b n] I. cbn [fst]. apply negb_false_iff. apply mem_true_iff.
  rewrite <- keys_manifest_of. eapply In_keys; eassumption.
Qed.

Lemma run_sync (self : NativeLibDownloader) (w : World) (f : option string) :
  dict_wf (host_build_id_map self) -> dict_wf (device_build_id_map self) ->
  exists r s',
    run (sync_natives_libs_on_device adb_exec self) w f = (r, s') /\
    sync_outcome (host_build_id_map self) (device_build_id_map self) r (trace s').
Proof.
  intros Wh Wd.
  destruct (sync_run World adb_exec self (mkState w f []) Wh Wd)
    as (r & s' & tr & E & T & O).
  exists r, s'. split; [exact E|]. cbn [trace app] in T. now rewrite T.
Qed.





End SyncClaims.

(* ===================================================================== *)
(** * The remote registry reader and the manifest format                  *)
(* ===================================================================== *)

Section ReaderClaims.

Import PyStrFacts DictFacts ParseFacts.

Variable World : Type.
Variable adb_exec : list string -> option string -> World -> adb_result * World.
Variable decode : string -> option string.

Lemma count_char_lstrip v c s :
  isspace v c = false -> count_char c (lstrip v s) = count_char c s.
Proof.
  intros H. induction s as [|x s IH]; cbn [lstrip]; [reflexivity|].
  destruct (isspace v x) eqn:E; [|reflexivity].
  cbn [count_char]. destruct (Ascii.eqb_spec x c); [congruence | exact IH].
Qed.

Lemma count_char_rstrip v c s :
  isspace v c = false -> count_char c (rstrip v s) = count_char c s.
Proof.
  intros H. induction s as [|x s IH]; cbn [rstrip]; [reflexivity|].
  cbn [count_char]. rewrite <- IH.
  destruct (rstrip v s) eqn:R; [|reflexivity].
  destruct (isspace v x) eqn:E; cbn [count_char]; [|lia].
  destruct (Ascii.eqb_spec x c); [congruence | reflexivity].
Qed.

Lemma count_char_strip v c s :
  isspace v c = false -> count_char c (strip v s) = count_char c s.
Proof.
  intros H. unfold strip. now rewrite count_char_rstrip, count_char_lstrip.
Qed.

Lemma read_line_one v m line :
  count_char EQ (strip v line) = 1 ->
  exists k n, strip v line = (k ++ String EQ n)%string /\
              contains EQ k = false /\ contains EQ n = false /\
              read_line v m line = Dict.set k n m.
Proof.
  intros H. destruct (count_one _ _ H) as (k & n & E & Hk & Hn).
  exists k, n. repeat split; try assumption.
  unfold read_line. rewrite E, split_app, split_none by assumption. reflexivity.
Qed.

Lemma read_line_other v m line :
  count_char EQ (strip v line) <> 1 -> read_line v m line = m.
Proof.
  intros H. unfold read_line.
  pose proof (split_length EQ (strip v line)) as L.
  destruct (split EQ (strip v line)) as [|a [|b [|c l]]]; try reflexivity.
  cbn [length] in L. lia.
Qed.

(** C3.  The reader stops in two cases only: the remote directory cannot
    be made, or the bytes of the retrieved file are no text for the
    interpreter (Python 3 and a codec that cannot decode them; never under
    Python 2), and such a file does stop it.  Otherwise the mapping it
    returns is what reading the text of the retrieved file line by line
    gives, from the empty mapping.  A line that, stripped of surrounding
    white space, has exactly one [=] sets the part before it to the part
    after it; a line with no [=] or with more than one leaves the mapping
    unchanged.  In particular a line whose name part has a further [=] is
    ignored. *)
Theorem reader_accepts_lines_with_one_eq (v : python) (self : NativeLibDownloader)
    (w : World) (f : option string)
    (r : option NativeLibDownloader) (s' : state World) :
  run (collect_native_libs_on_device adb_exec decode v self) w f = (r, s') ->
  (r = None ->
   trace s' = [EvAdb mkdir_command false] \/
   exists bytes before ok,
     list_file s' = Some bytes /\ text_of decode v bytes = None /\ v = Py3 /\
     trace s' = before ++ [EvAdb pull_command ok]) /\
  (forall bytes before ok,
     trace s' = before ++ [EvAdb pull_command ok] ->
     list_file s' = Some bytes -> text_of decode v bytes = None -> r = None) /\
  (forall self', r = Some self' ->
     match list_file s' with
     | Some bytes =>
         exists text,
           text_of decode v bytes = Some text /\
           device_build_id_map self'
           = fold_left (read_line v) (readlines v text) []
     | None => device_build_id_map self' = []
     end) /\
  (forall m line,
     (count_char EQ (strip v line) = 1 ->
      exists k n, strip v line = (k ++ String EQ n)%string /\
                  contains EQ k = false /\ contains EQ n = false /\
                  read_line v m line = Dict.set k n m) /\
     (count_char EQ (strip v line) <> 1 -> read_line v m line = m)) /\
  (forall m k n1 n2,
     read_line v m (k ++ String EQ (n1 ++ String EQ n2))%string = m).
Proof.
  intros E.
  pose proof (reader_run World adb_exec decode v self w f) as R.
  cbv zeta in R. rewrite R in E. clear R.
  split; [|split; [|split; [|split]]].
  - intros ->. revert E.
    destruct (adb_ok (fst (adb_exec mkdir_command f w))).
    2:{ intros H. injection H as <-. now left. }
    destruct (adb_fetched (fst (adb_exec pull_command None _))) as [bytes|] eqn:F;
      [|discriminate].
    destruct (text_of decode v bytes) eqn:D; [discriminate|].
    intros H. injection H as <-. right. cbn [list_file trace].
    exists bytes. eexists. eexists.
    split; [reflexivity|]. split; [exact D|].
    split; [destruct v; [discriminate D | reflexivity]|].
    rewrite app_comm_cons. reflexivity.
  - intros bytes before ok T L D. revert E.
    destruct (adb_ok (fst (adb_exec mkdir_command f w))).
    2:{ intros H. now injection H as <- _. }
    destruct (adb_fetched (fst (adb_exec pull_command None _))) as [bytes'|] eqn:F.
    + destruct (text_of decode v bytes') eqn:D'.
      * intros H. injection H as <- <-. cbn [list_file] in L.
        injection L as <-. congruence.
      * intros H. now injection H as <- _.
    + intros H. injection H as <- <-. discriminate L.
  - intros self' ->. revert E.
    destruct (adb_ok (fst (adb_exec mkdir_command f w))); [|discriminate].
    destruct (adb_fetched (fst (adb_exec pull_command None _))) as [bytes|] eqn:F.
    + destruct (text_of decode v bytes) as [text|] eqn:D; [|discriminate].
      intros H. injection H as <- <-. cbn [list_file].
      exists text. split; [exact D | reflexivity].
    + intros H. injection H as <- <-. reflexivity.
  - intros m line. split; [apply read_line_one | apply read_line_other].
  - intros m k n1 n2. apply read_line_other.
    rewrite count_char_strip by apply isspace_EQ.
    rewrite count_char_app. cbn [count_char]. rewrite Ascii.eqb_refl.
    rewrite count_char_app. cbn [count_char]. rewrite Ascii.eqb_refl. lia.
Qed.

(** C4.  A mapping whose keys and names have no [=] and no line break, no
    key starting and no name ending with white space, is read back
    unchanged from its serialization. *)
Theorem manifest_round_trip (v : python) (m : dict string) :
  dict_wf m ->
  (forall k n, In (k, n) m -> format_safe v k n = true) ->
  read_build_id_list v (serialize_manifest m) [] = m.
Proof.
  intros W S. unfold read_build_id_list.
  rewrite readlines_serialize by exact S.
  rewrite read_written_lines by exact S.
  now rewrite set_all_fresh.
Qed.

End ReaderClaims.

(* ===================================================================== *)
(** * The claims on a concrete device                                     *)
(* ===================================================================== *)

Section Runs.

Import Fixture.





(** On a device whose first command fails the sync exits at the push. *)
Lemma first_push_fails :
  exists s',
    run (sync_natives_libs_on_device fails_at b1_b2) 0 None = (None, s') /\
    trace s' = [EvAdb (push_command
                         {| path := "/libs/lib2.so"; name := "lib2.so"; score := 0 |})
                      false].
Proof. eexists. split; reflexivity. Qed.


(** The reader returns the good line of the held list only. *)
Lemma reader_accepts_lines_with_one_eq_witness :
  exists self' s',
    run (collect_native_libs_on_device (holds held) ascii_codec Py3 b1_b2) 0
        (Some "old")
    = (Some self', s') /\
    list_file s' = Some held /\
    device_build_id_map self' = [("B1", "lib1.so")].
Proof.
  assert (E : run (collect_native_libs_on_device (holds held) ascii_codec Py3 b1_b2)
                0 (Some "old")
              = (Some (set_device_build_id_map b1_b2 [("B1", "lib1.so")]),
                 mkState 2 (Some held)
                   [EvAdb mkdir_command true; EvRemove build_id_list_file;
                    EvAdb pull_command true]))
    by (vm_compute; reflexivity).
  eexists. eexists. split; [exact E|]. split; [reflexivity|].
  destruct (proj1 (proj2 (proj2 (reader_accepts_lines_with_one_eq nat (holds held)
                                   ascii_codec Py3 b1_b2 0 (Some "old") _ _ E)))
              _ eq_refl) as (text & D & R).
  rewrite R. clear R.
  assert (T : text_of ascii_codec Py3 held = Some held) by (vm_compute; reflexivity).
  rewrite T in D. injection D as <-. vm_compute. reflexivity.
Defined.

(** A list with a byte above 127, Python 3 and the ascii codec: the reader
    stops after the pull.  Under Python 2 the line is read. *)
Lemma undecodable_list_stops_reader :
  (exists s',
     run (collect_native_libs_on_device (holds garbled) ascii_codec Py3 b1_b2) 0 None
     = (None, s') /\
     list_file s' = Some garbled /\
     trace s' = [EvAdb mkdir_command true; EvAdb pull_command true]) /\
  (exists self' s',
     run (collect_native_libs_on_device (holds garbled) ascii_codec Py2 b1_b2) 0 None
     = (Some self', s') /\
     device_build_id_map self'
     = [("B1", ("lib" ++ String "255"%char ".so")%string)]).
Proof.
  split; [eexists | eexists; eexists];
    repeat lazymatch goal with |- _ /\ _ => split; [vm_compute; reflexivity|] end;
    vm_compute; reflexivity.
Qed.

(** C3, as the claim has it: a line whose name part has a further [=]
    would be accepted with all that follows the first [=] as the name.
    The reader ignores the line. *)
Lemma further_eq_is_ignored :
  read_line_first Py3 [] ("X=lib=1.so" ++ String LF "")%string = [("X", "lib=1.so")] /\
  read_line Py3 [] ("X=lib=1.so" ++ String LF "")%string = [] /\
  read_line Py2 [] ("X=lib=1.so" ++ String LF "")%string = [] /\
  read_build_id_list Py3 held [] = [("B1", "lib1.so")] /\
  read_build_id_list Py2 held [] = [("B1", "lib1.so")] /\
  read_build_id_list Py3 held [] <> [("B1", "lib1.so"); ("X", "lib=1.so")].
Proof. repeat split; try reflexivity. discriminate. Qed.

Lemma manifest_round_trip_witness :
  dict_wf [("B2", "lib2.so"); ("X", "liba.so_1")] /\
  read_build_id_list Py3
    (serialize_manifest [("B2", "lib2.so"); ("X", "liba.so_1")]) []
  = [("B2", "lib2.so"); ("X", "liba.so_1")].
Proof.
  assert (W : dict_wf [("B2", "lib2.so"); ("X", "liba.so_1")]).
  { constructor; [intros [E|[]]; discriminate|].
    constructor; [intros [] | constructor]. }
  split; [exact W|].
  apply (manifest_round_trip Py3 _ W).
  intros k n [E|[E|[]]]; injection E as <- <-; reflexivity.
Defined.

(** C4, as the claim has it: a name without [=] and newline that ends
    with a space is not read back, and neither is a key that starts with
    one; under Python 3 a carriage return inside a name ends the line. *)
Lemma white_space_is_stripped :
  contains EQ "b " = false /\ contains LF "b " = false /\
  contains EQ " a" = false /\ contains LF " a" = false /\
  dict_wf [("a", "b ")] /\ dict_wf [(" a", "b")] /\
  read_build_id_list Py3 (serialize_manifest [("a", "b ")]) [] = [("a", "b")] /\
  read_build_id_list Py2 (serialize_manifest [("a", "b ")]) [] = [("a", "b")] /\
  read_build_id_list Py3 (serialize_manifest [(" a", "b")]) [] = [("a", "b")] /\
  read_build_id_list Py3 (serialize_manifest [("a", "b ")]) [] <> [("a", "b ")] /\
  read_build_id_list Py2 (serialize_manifest [("a", "b ")]) [] <> [("a", "b ")] /\
  read_build_id_list Py3
    (serialize_manifest [("a", String "b" (String CR "c"))]) [] = [("a", "b")].
Proof.
  repeat split; try reflexivity; try discriminate;
    (constructor; [intros [] | constructor]).
Qed.

End Runs.

(* ===================================================================== *)
(** * More on the host registry                                           *)
(* ===================================================================== *)

Section RegistryFacts.

Import DictFacts PyStrFacts ScanFacts BestFacts.

Lemma candidates_iff (w : walk) fpath fname :
  In (fpath, fname) (candidates w) <->
  exists root dirs files,
    In (root, dirs, files) w /\ In fname files /\
    endswith fname ".so" = true /\ fpath = os_path_join root fname.
Proof.
  unfold candidates. rewrite in_flat_map. split.
  - intros [[[root dirs] files] [I H]].
    rewrite in_map_iff in H. destruct H as [x [E H]].
    injection E as <- ->. apply filter_In in H. destruct H as [H S].
    now exists root, dirs, files.
  - intros (root & dirs & files & I & F & S & ->).
    exists (root, dirs, files). split; [exact I|].
    apply in_map_iff. exists fname. split; [reflexivity|].
    apply filter_In. now split.
Qed.

Lemma add_wf s fp fn :
  dict_wf (host_build_id_map s) ->
  dict_wf (host_build_id_map (add_native_lib_on_host s fp fn)).
Proof.
  intros W. destruct (add_cases s fp fn); try assumption;
    cbn [set_host_build_id_map host_build_id_map]; now apply set_wf.
Qed.

Lemma add_all_wf l : forall s,
  dict_wf (host_build_id_map s) -> dict_wf (host_build_id_map (add_all s l)).
Proof.
  induction l as [|[fp fn] l IH]; intros s W; [exact W|].
  cbn [add_all fold_left]. fold (add_all (add_native_lib_on_host s fp fn) l).
  apply IH. now apply add_wf.
Qed.

Lemma collect_wf self w :
  dict_wf (host_build_id_map (collect_native_libs_on_host self w)).
Proof. apply add_all_wf. constructor. Qed.

(** X1.  After a scan the registry has exactly the build ids of the
    accepted files: a build id is a key exactly when some walked file
    ending in .so has it together with a needed architecture, and no key
    occurs twice. *)
Theorem registry_keys_are_accepted_build_ids (self : NativeLibDownloader)
    (w : walk) (b : string) :
  let registry := host_build_id_map (collect_native_libs_on_host self w) in
  dict_wf registry /\
  (In b (keys registry) <->
   exists root dirs files fname,
     In (root, dirs, files) w /\ In fname files /\
     endswith fname ".so" = true /\
     get_build_id (readelf self) (os_path_join root fname) = b /\
     b <> "" /\
     In (get_arch (readelf self) (os_path_join root fname)) (need_archs self)).
Proof.
  intros registry. split; [apply collect_wf|].
  destruct (best_inv_collect self w) as (_ & _ & Known & Best).
  assert (Acc : forall fp, accepted self fp = true <->
                  get_build_id (readelf self) fp <> "" /\
                  In (get_arch (readelf self) fp) (need_archs self)).
  { intros fp. unfold accepted. rewrite andb_true_iff, negb_true_iff.
    rewrite str_in_In. split; intros [H1 H2]; (split; [|exact H2]).
    - now apply String.eqb_neq.
    - now apply String.eqb_neq. }
  split.
  - intros I. apply key_get in I. destruct I as [e G].
    destruct (Best _ _ G) as (l1 & fp & fn & l2 & C & A & B & _).
    assert (I : In (fp, fn) (candidates w))
      by (rewrite C; apply in_or_app; right; now left).
    apply candidates_iff in I. destruct I as (root & dirs & files & I & F & S & ->).
    exists root, dirs, files, fn.
    apply Acc in A. destruct A as [A1 A2]. unfold build_id_of in B. cbn in B.
    repeat split; try assumption. now rewrite <- B.
  - intros (root & dirs & files & fn & I & F & S & B & N & A).
    assert (C : In (os_path_join root fn, fn) (candidates w)).
    { apply candidates_iff. now exists root, dirs, files. }
    assert (A' : accepted self (os_path_join root fn) = true).
    { apply Acc. split; [now rewrite B | exact A]. }
    pose proof (Known _ _ C A') as K. unfold build_id_of in K. cbn in K.
    rewrite B in K.
    destruct (Dict.get b registry) eqn:G; [|contradiction].
    apply get_Some_In in G. eapply In_keys; eassumption.
Qed.

Lemma endswith_app_r (a b suffix : string) :
  endswith b suffix = true -> endswith (a ++ b) suffix = true.
Proof.
  intros H. induction a as [|c a IH]; cbn [append endswith]; [exact H|].
  rewrite IH. apply orb_true_r.
Qed.

Lemma os_path_join_endswith root fname suffix :
  endswith fname suffix = true -> endswith (os_path_join root fname) suffix = true.
Proof.
  intros H. unfold os_path_join.
  destruct (first_char fname) as [c|]; [destruct (Ascii.eqb_spec c "/"%char)|].
  - subst. exact H.
  - replace (match c with "/"%char => fname | _ => _ end)
      with (match last_char root with
            | Some "/"%char => (root ++ fname)%string
            | Some _ => (root ++ "/" ++ fname)%string
            | None => fname
            end).
    + destruct (last_char root) as [d|]; [|exact H].
      destruct (Ascii.eqb_spec d "/"%char); subst.
      * now apply endswith_app_r.
      * replace (match d with "/"%char => (root ++ fname)%string | _ => _ end)
          with (root ++ "/" ++ fname)%string.
        -- apply endswith_app_r. now apply (endswith_app_r "/").
        -- destruct d as [[] [] [] [] [] [] [] []]; try reflexivity.
           contradiction.
    + destruct c as [[] [] [] [] [] [] [] []]; try reflexivity. contradiction.
  - destruct (last_char root) as [d|]; [|exact H].
    destruct (Ascii.eqb_spec d "/"%char); subst.
    * now apply endswith_app_r.
    * replace (match d with "/"%char => (root ++ fname)%string | _ => _ end)
        with (root ++ "/" ++ fname)%string.
      -- apply endswith_app_r. now apply (endswith_app_r "/").
      -- destruct d as [[] [] [] [] [] [] [] []]; try reflexivity.
         contradiction.
Qed.

Lemma compute_score_le sections : compute_score sections <= 3.
Proof.
  unfold compute_score.
  repeat match goal with |- context [if ?c then _ else _] => destruct c end; lia.
Qed.

(** X2.  Every entry of a scanned registry describes one walked file: its
    path is [os.path.join(root, name)] for a file name ending in .so that
    [os.walk] listed under [root], so the path ends in .so; the file has the
    entry's build id and a needed architecture; the entry's score is the
    score of that same file and is at most 3. *)
Theorem registry_entries_are_walked_files (self : NativeLibDownloader)
    (w : walk) (b : string) (entry : HostElfEntry) :
  Dict.get b (host_build_id_map (collect_native_libs_on_host self w)) = Some entry ->
  (exists root dirs files fname,
     In (root, dirs, files) w /\ In fname files /\
     endswith fname ".so" = true /\ path entry = os_path_join root fname) /\
  endswith (path entry) ".so" = true /\
  get_build_id (readelf self) (path entry) = b /\
  In (get_arch (readelf self) (path entry)) (need_archs self) /\
  score entry = compute_score (get_sections (readelf self) (path entry)) /\
  score entry <= 3.
Proof.
  intros G.
  destruct (best_inv_collect self w) as (_ & _ & _ & Best).
  destruct (Best _ _ G) as (l1 & fp & fn & l2 & C & A & B & P & S & _).
  assert (I : In (fp, fn) (candidates w))
    by (rewrite C; apply in_or_app; right; now left).
  apply candidates_iff in I. destruct I as (root & dirs & files & I & F & So & E).
  unfold accepted in A. apply andb_true_iff in A. destruct A as [_ A].
  apply str_in_In in A. cbn in A.
  subst fp. repeat split.
  - now exists root, dirs, files, fn.
  - rewrite E. now apply os_path_join_endswith.
  - exact B.
  - exact A.
  - exact S.
  - rewrite S. apply compute_score_le.
Qed.

Lemma registry_entries_are_walked_files_witness :
  Dict.get "Y" (host_build_id_map Fixture.scanned)
  = Some {| path := "/libs/subdir/liba.so"; name := "liba.so_1"; score := 2 |} /\
  endswith "/libs/subdir/liba.so" ".so" = true /\
  get_build_id Fixture.elf "/libs/subdir/liba.so" = "Y".
Proof.
  split; [reflexivity|].
  destruct (registry_entries_are_walked_files Fixture.fresh Fixture.libs "Y" _ eq_refl)
    as (_ & E & B & _).
  split; [exact E | exact B].
Defined.

End RegistryFacts.

(* ===================================================================== *)
(** * More on the remote registry reader                                  *)
(* ===================================================================== *)

Section ReaderFacts.

Import DictFacts PyStrFacts ParseFacts.

Variable World : Type.
Variable adb_exec : list string -> option string -> World -> adb_result * World.
Variable decode : string -> option string.

(** X3.  When the pull fetches no list (the device has none yet), the
    reader returns an empty device map, whatever the scanner held before
    and whatever local build_id_list was lying there: the local file is
    removed before the pull and never read.  The host registry and the
    name counts are untouched. *)
Theorem reader_without_list_is_empty (v : python) (self : NativeLibDownloader)
    (w : World) (f : option string)
    (self' : NativeLibDownloader) (s' : state World) :
  (forall local w0, adb_fetched (fst (adb_exec pull_command local w0)) = None) ->
  run (collect_native_libs_on_device adb_exec decode v self) w f = (Some self', s') ->
  device_build_id_map self' = [] /\
  list_file s' = None /\
  host_build_id_map self' = host_build_id_map self /\
  name_count_map self' = name_count_map self /\
  need_archs self' = need_archs self.
Proof.
  intros H E. rewrite reader_run in E. cbv zeta in E.
  destruct (adb_ok (fst (adb_exec mkdir_command f w))); [|discriminate].
  rewrite H in E. injection E as <- <-. repeat split.
Qed.

Lemma read_line_item v m line :
  read_line v m line
  = match line_item v line with
    | Some (k, n) => Dict.set k n m
    | None => m
    end.
Proof.
  unfold read_line, line_item.
  destruct (split EQ (strip v line)) as [|a [|b [|c l]]]; reflexivity.
Qed.

Lemma read_lines_other v k lines : forall m,
  (forall line n, In line lines -> line_item v line <> Some (k, n)) ->
  Dict.get k (fold_left (read_line v) lines m) = Dict.get k m.
Proof.
  induction lines as [|line lines IH]; intros m H; [reflexivity|].
  cbn [fold_left]. rewrite IH by (intros; apply H; now right).
  rewrite read_line_item.
  destruct (line_item v line) as [[k' n']|] eqn:E; [|reflexivity].
  apply get_set_ne. intros ->. exact (H line n' (or_introl eq_refl) E).
Qed.

Lemma read_lines_wf v lines : forall m,
  dict_wf m -> dict_wf (fold_left (read_line v) lines m).
Proof.
  induction lines as [|line lines IH]; intros m W; [exact W|].
  cbn [fold_left]. apply IH. rewrite read_line_item.
  destruct (line_item v line) as [[k n]|]; [now apply set_wf | exact W].
Qed.

(** X4.  In the list that the reader parses, the last accepted line of a
    build id decides its name, a build id that no accepted line has keeps
    what the mapping had, and the mapping stays a dict (no key twice). *)
Theorem reader_last_line_wins (v : python) (content : string) (m : dict string) :
  (forall before line after k n,
     readlines v content = before ++ line :: after ->
     line_item v line = Some (k, n) ->
     (forall later n', In later after -> line_item v later <> Some (k, n')) ->
     Dict.get k (read_build_id_list v content m) = Some n) /\
  (forall k,
     (forall line n, In line (readlines v content) ->
                     line_item v line <> Some (k, n)) ->
     Dict.get k (read_build_id_list v content m) = Dict.get k m) /\
  (dict_wf m -> dict_wf (read_build_id_list v content m)).
Proof.
  unfold read_build_id_list. split; [|split].
  - intros before line after k n E I L.
    rewrite E, fold_left_app. cbn [fold_left].
    rewrite read_lines_other by exact L.
    rewrite read_line_item, I. apply get_set_eq.
  - intros k H. now apply read_lines_other.
  - apply read_lines_wf.
Qed.

End ReaderFacts.

(** A device without a list, a stale local file: the reader returns [{}]. *)
Lemma reader_without_list_is_empty_witness :
  exists self' s',
    run (collect_native_libs_on_device Fixture.rm_fails Fixture.ascii_codec Py3
           Fixture.b1_b2) 0 (Some "B9=stale.so")
    = (Some self', s') /\
    device_build_id_map self' = [] /\ list_file s' = None.
Proof.
  eexists. eexists. split; [reflexivity|].
  destruct (reader_without_list_is_empty nat Fixture.rm_fails Fixture.ascii_codec
              Py3 Fixture.b1_b2 0 (Some "B9=stale.so") _ _ (fun _ _ => eq_refl)
              eq_refl)
    as (D & L & _).
  split; [exact D | exact L].
Defined.

(** Two lines for B1: the second name is the one kept. *)
Lemma reader_last_line_wins_witness :
  Dict.get "B1"
    (read_build_id_list Py3
       ("B1=old.so" ++ String LF ("B2=lib2.so" ++ String LF ("B1=new.so" ++ String LF ""))) [])
  = Some "new.so".
Proof.
  apply (proj1 (reader_last_line_wins Py3 _ [])
           [("B1=old.so" ++ String LF "")%string; ("B2=lib2.so" ++ String LF "")%string]
           ("B1=new.so" ++ String LF "")%string [] "B1" "new.so");
    [reflexivity | reflexivity | intros ? ? []].
Defined.

(* ===================================================================== *)
(** * More on the sync engine                                             *)
(* ===================================================================== *)

Section SyncMore.

Import DictFacts PyStrFacts ParseFacts.

Variable World : Type.
Variable adb_exec : list string -> option string -> World -> adb_result * World.
Variable decode : string -> option string.

Lemma removal_is_rm rms stale :
  Forall2 removal rms stale ->
  forall args ok, In (EvAdb args ok) rms -> exists stored, args = rm_command stored.
Proof.
  induction 1 as [|ev n rms stale [ok0 ->] _ IH]; intros args ok I.
  - destruct I.
  - destruct I as [E|I]; [injection E as <- _; now exists n | exact (IH _ _ I)].
Qed.

(** X5.  A host file that the sync pushes under a name that a stale entry
    of the remote manifest also has (a rebuilt library: new build id, same
    file name) is pushed first and removed afterwards: the trace has the
    push to the remote path, later the [rm] of that same path, and after it
    no push but that of the list, which records the build id under that
    name. *)
Theorem pushed_file_removed_under_stale_name (self : NativeLibDownloader)
    (w : World) (f : option string) (s' : state World)
    (b b' : string) (entry : HostElfEntry) :
  let host := host_build_id_map self in
  let device := device_build_id_map self in
  dict_wf host -> dict_wf device ->
  Dict.get b host = Some entry -> Dict.get b device = None ->
  Dict.get b' device = Some (name entry) -> Dict.get b' host = None ->
  run (sync_natives_libs_on_device adb_exec self) w f = (Some tt, s') ->
  exists t1 t2 t3 ok,
    trace s' = t1 ++ EvAdb ["push"; path entry; on_device (name entry)] true ::
               t2 ++ EvAdb ["shell"; "rm"; on_device (name entry)] ok :: t3 /\
    (forall args ok', In (EvAdb ("push" :: args) ok') t3 ->
                      "push" :: args = push_list_command) /\
    In (EvWrite build_id_list_file (serialize_manifest (manifest_of host))) t3 /\
    Dict.get b (manifest_of host) = Some (name entry).
Proof.
  intros host device Wh Wd Gh Gd Gd' Gh' E.
  destruct (run_sync World adb_exec self w f Wh Wd) as (r & s0 & E0 & O).
  rewrite E in E0. injection E0 as <- <-.
  fold host in O. fold device in O.
  inversion O as [rms F R T | |].
  assert (Im : In entry (missing_on_device host device))
    by (apply In_missing; eauto).
  assert (Is : In (name entry) (stale_on_device host device))
    by (apply In_stale; eauto).
  apply in_split in Im. destruct Im as (m1 & m2 & Em).
  apply in_split in Is. destruct Is as (n1 & n2 & En).
  rewrite En in F. apply Forall2_app_inv_r in F.
  destruct F as (r1 & r2 & F1 & F2 & ->).
  inversion F2 as [|ev ? r2' ? [ok ->] F2' E1 E2]. subst.
  exists (map pushed m1), (map pushed m2 ++ r1), (r2' ++ rewrite_events host), ok.
  split; [|split; [|split]].
  - rewrite Em, map_app. cbn [map]. rewrite <- !app_assoc. reflexivity.
  - intros args ok' I. apply in_app_or in I. destruct I as [I|I].
    + destruct (removal_is_rm _ _ F2' _ _ I) as [stored S]. discriminate.
    + destruct I as [I|[I|[I|[]]]]; try discriminate.
      injection I as <- _. reflexivity.
  - apply in_or_app. right. now left.
  - rewrite get_manifest_of, Gh. reflexivity.
Qed.



(** X7.  [_download_native_libs] on a device that holds the list which a
    sync of the scanned registry writes (the [pull] leaves bytes that the
    interpreter reads as that list), for build ids and names that the
    format carries: the only adb commands are the [mkdir], the [pull] and
    the push of the list.  No library is pushed and nothing is removed. *)
Theorem download_on_synced_device (v : python) (re : ReadElf)
    (device_arch : string) (libs : walk)
    (w : World) (f : option string) (r : option unit) (s' : state World) :
  let registry :=
    host_build_id_map (collect_native_libs_on_host (init re device_arch) libs) in
  (forall b e, In (b, e) registry -> format_safe v b (name e) = true) ->
  (forall local w0, exists bytes,
     adb_fetched (fst (adb_exec pull_command local w0)) = Some bytes /\
     text_of decode v bytes = Some (serialize_manifest (manifest_of registry))) ->
  run (_download_native_libs adb_exec decode v re device_arch libs) w f = (r, s') ->
  forall args ok,
    In (EvAdb args ok) (trace s') ->
    args = mkdir_command \/ args = pull_command \/ args = push_list_command.
Proof.
  intros registry Safe Held E args ok I.
  unfold _download_native_libs, run, bind in E.
  pose proof (reader_run World adb_exec decode v
                (collect_native_libs_on_host (init re device_arch) libs) w f) as R.
  cbv zeta in R. unfold run in R. rewrite R in E. clear R.
  destruct (adb_ok (fst (adb_exec mkdir_command f w))).
  2:{ injection E as <- <-. destruct I as [I|[]]. injection I as <- _. now left. }
  destruct (Held None (snd (adb_exec mkdir_command f w))) as (bytes & P & D).
  rewrite P, D in E.
  assert (W : dict_wf registry) by apply collect_wf.
  rewrite (written_list_is_read_back v registry W Safe) in E.
  match type of E with sync_natives_libs_on_device _ ?d ?s1 = _ =>
    destruct (sync_run World adb_exec d s1) as (r0 & s0 & tr & E0 & T & O)
  end.
  { exact W. }
  { cbn [set_device_build_id_map device_build_id_map].
    unfold dict_wf. now rewrite keys_manifest_of. }
  rewrite E in E0. injection E0 as <- <-.
  cbn [set_device_build_id_map host_build_id_map device_build_id_map] in O.
  fold registry in O.
  rewrite T in I. cbn [trace] in I.
  assert (Pre : forall ev, In ev
            (EvAdb mkdir_command true ::
             match
               match adb_fetched (fst (adb_exec mkdir_command f w)) with
               | Some c => Some c
               | None => f
               end
             with
             | Some _ => [EvRemove build_id_list_file]
             | None => []
             end ++
             [EvAdb pull_command
                (adb_ok (fst (adb_exec pull_command None
                                (snd (adb_exec mkdir_command f w)))))]) ->
            ev = EvAdb args ok -> args = mkdir_command \/ args = pull_command).
  { intros ev [<-|J] Ev; [injection Ev as <- _; now left|].
    apply in_app_or in J. destruct J as [J|[<-|[]]].
    - destruct (match adb_fetched _ with Some c => Some c | None => f end);
        [destruct J as [<-|[]]; discriminate | destruct J].
    - injection Ev as <- _. now right. }
  apply in_app_or in I. destruct I as [I|I].
  { destruct (Pre _ I eq_refl) as [H|H]; auto. }
  right. right.
  inversion O as [rms F Rr Tt | done entry rest M Rr Tt | rms F Rr Tt]; subst tr.
  - rewrite nothing_missing, nothing_stale in *. inversion F; subst.
    destruct I as [I|[I|[I|[]]]]; try discriminate. now injection I as <- _.
  - rewrite nothing_missing in M. destruct done; discriminate.
  - rewrite nothing_missing, nothing_stale in *. inversion F; subst.
    destruct I as [I|[I|[]]]; try discriminate. now injection I as <- _.
Qed.



End SyncMore.

(** The manifest [{B1: lib1.so}] and a registry [{B2: lib1.so}]: the file
    pushed as lib1.so is then removed. *)
Lemma pushed_file_removed_under_stale_name_witness :
  exists s' t1 t2 t3 ok,
    run (sync_natives_libs_on_device Fixture.rm_fails rebuilt) 0 None
    = (Some tt, s') /\
    trace s' = t1 ++ EvAdb ["push"; "/libs/lib1.so"; on_device "lib1.so"] true ::
               t2 ++ EvAdb ["shell"; "rm"; on_device "lib1.so"] ok :: t3.
Proof.
  eexists.
  destruct (pushed_file_removed_under_stale_name nat Fixture.rm_fails rebuilt
              0 None
              (snd (run (sync_natives_libs_on_device Fixture.rm_fails rebuilt) 0 None))
              "B2" "B1"
              {| path := "/libs/lib1.so"; name := "lib1.so"; score := 0 |})
    as (t1 & t2 & t3 & ok & T & _);
    try reflexivity; try (constructor; [intros [] | constructor]).
  exists t1, t2, t3, ok. split; [reflexivity | exact T].
Defined.


(** The scanned /libs on the device that holds its list: the push of the
    list is in the trace, and it is one of the three commands. *)
Lemma download_on_synced_device_witness :
  In (EvAdb push_list_command true)
     (trace (snd (run (_download_native_libs synced_device Fixture.ascii_codec
                         Py3 Fixture.elf "arm64" Fixture.libs) 0 None))) /\
  (push_list_command = mkdir_command \/ push_list_command = pull_command \/
   push_list_command = push_list_command) /\
  length (trace (snd (run (_download_native_libs synced_device Fixture.ascii_codec
                             Py3 Fixture.elf "arm64" Fixture.libs) 0 None))) = 5.
Proof.
  assert (I : In (EvAdb push_list_command true)
                 (trace (snd (run (_download_native_libs synced_device
                                     Fixture.ascii_codec Py3 Fixture.elf "arm64"
                                     Fixture.libs) 0 None)))).
  { vm_compute. right. right. right. left. reflexivity. }
  split; [exact I|]. split; [|vm_compute; reflexivity].
  apply (download_on_synced_device nat synced_device Fixture.ascii_codec Py3
           Fixture.elf "arm64" Fixture.libs 0 None
           (fst (run (_download_native_libs synced_device Fixture.ascii_codec
                        Py3 Fixture.elf "arm64" Fixture.libs) 0 None))
           (snd (run (_download_native_libs synced_device Fixture.ascii_codec
                        Py3 Fixture.elf "arm64" Fixture.libs) 0 None)))
    with (ok := true).
  - intros b e J. vm_compute in J.
    destruct J as [E|[E|[E|[]]]]; injection E as <- <-; vm_compute; reflexivity.
  - intros local w0. eexists. split; vm_compute; reflexivity.
  - vm_compute. reflexivity.
  - exact I.
Defined.


(* ===================================================================== *)
(** * What [check_config] lets through                                    *)
(* ===================================================================== *)

Section ConfigFacts.

Import DictFacts.

Variables isdir isfile : pyval -> bool.

Lemma config_get_set_eq (c : dict pyval) k x : config_get (Dict.set k x c) k = x.
Proof. unfold config_get. now rewrite get_set_eq. Qed.

Lemma config_get_set_ne (c : dict pyval) k k' x :
  k <> k' -> config_get (Dict.set k x c) k' = config_get c k'.
Proof. intros N. unfold config_get. now rewrite get_set_ne. Qed.

Lemma find_missing_none (c : dict pyval) :
  find (fun key => negb (mem key c)) config_names = None ->
  forall key, In key config_names -> mem key c = true.
Proof.
  intros H key I. pose proof (find_none _ _ H key I) as N.
  now apply negb_false_iff in N.
Qed.

(** The cases of [check_config] that end normally. *)
Ltac settle H :=
  repeat match type of H with
         | context [if ?b then _ else _] =>
             let E := fresh "E" in destruct b eqn:E; try discriminate H
         end.

(** X9.  A config that [check_config] lets through names exactly one
    profiling target (an app, a native program or a command); with an app
    it does not ask for both an activity and a test; its native_lib_dir,
    when set, is a directory and is set when libraries are to be
    downloaded; its apk file, when set, is a file; a recompiled app has an
    activity or a test to restart it with; and profiling from launch comes
    with an app, an activity and an architecture, never with a test. *)
Theorem checked_config_guarantees (config config' : dict pyval) :
  check_config isdir isfile config = Done config' ->
  let on key := truthy (config_get config' key) in
  (on "app_package_name" = true /\ on "native_program" = false /\ on "cmd" = false \/
   on "app_package_name" = false /\ on "native_program" = true /\ on "cmd" = false \/
   on "app_package_name" = false /\ on "native_program" = false /\ on "cmd" = true) /\
  (on "app_package_name" = true ->
   on "launch_activity" = false \/ on "launch_inst_test" = false) /\
  (on "native_lib_dir" = true -> isdir (config_get config' "native_lib_dir") = true) /\
  (on "download_libs" = true -> on "native_lib_dir" = true) /\
  (on "apk_file_path" = true -> isfile (config_get config' "apk_file_path") = true) /\
  (on "recompile_app" = true ->
   on "launch_activity" = true \/ on "launch_inst_test" = true) /\
  (on "profile_from_launch" = true ->
   on "app_package_name" = true /\ on "launch_activity" = true /\
   on "app_arch" = true /\ on "launch_inst_test" = false).
Proof.
  unfold check_config. intros H.
  destruct (find _ config_names); [discriminate|].
  cbv zeta in H.
  destruct (truthy (config_get config "recompile_app") &&
            (negb (truthy (config_get config "launch_activity")) &&
             negb (truthy (config_get config "launch_inst_test")))) eqn:R.
  - (* launch_activity is filled in *)
    rewrite !config_get_set_eq, !config_get_set_ne in H by discriminate.
    cbn [truthy String.eqb Ascii.eqb Bool.eqb negb] in H.
    settle H.
    all: injection H as <-; cbv zeta.
    all: rewrite ?config_get_set_eq, ?config_get_set_ne by discriminate.
    all: cbn [truthy String.eqb Ascii.eqb Bool.eqb negb].
    all: repeat match goal with
                | E : _ && _ = true |- _ => apply andb_true_iff in E; destruct E
                | E : negb _ = true |- _ => apply negb_true_iff in E
                | E : negb _ = false |- _ => apply negb_false_iff in E
                end.
    all: destruct (truthy (config_get config "app_package_name")),
                  (truthy (config_get config "native_program")),
                  (truthy (config_get config "cmd")),
                  (truthy (config_get config "launch_inst_test"));
      try discriminate.
    all: destruct (truthy (config_get config "native_lib_dir")),
                  (truthy (config_get config "download_libs")),
                  (truthy (config_get config "apk_file_path")),
                  (truthy (config_get config "app_arch"));
      try discriminate.
    all: cbn in *; repeat split; intros; auto; try discriminate; try congruence.
    all: try (destruct (isdir (config_get config "native_lib_dir"));
              cbn in *; congruence).
    all: destruct (isfile (config_get config "apk_file_path"));
      cbn in *; congruence.
  - settle H.
    all: injection H as <-; cbv zeta.
    all: repeat match goal with
                | E : negb _ = true |- _ => apply negb_true_iff in E
                | E : negb _ = false |- _ => apply negb_false_iff in E
                end.
    all: destruct (truthy (config_get config "app_package_name")),
                  (truthy (config_get config "native_program")),
                  (truthy (config_get config "cmd")),
                  (truthy (config_get config "launch_inst_test")),
                  (truthy (config_get config "launch_activity"));
      try discriminate.
    all: destruct (truthy (config_get config "native_lib_dir")),
                  (truthy (config_get config "download_libs")),
                  (truthy (config_get config "apk_file_path")),
                  (truthy (config_get config "app_arch")),
                  (truthy (config_get config "recompile_app")),
                  (truthy (config_get config "profile_from_launch"));
      try discriminate.
    all: cbn in *; repeat split; intros; auto; try discriminate; try congruence.
    all: try (destruct (isdir (config_get config "native_lib_dir"));
              cbn in *; congruence).
    all: destruct (isfile (config_get config "apk_file_path"));
      cbn in *; congruence.
Qed.

(** X10.  [check_config] leaves the config as it was but for
    launch_activity, which becomes .MainActivity exactly when the app is to
    be recompiled and neither an activity nor a test was given; the keys
    and their order stay. *)
Theorem check_config_fills_launch_activity (config config' : dict pyval) :
  check_config isdir isfile config = Done config' ->
  keys config' = keys config /\
  (forall key, key <> "launch_activity" ->
               Dict.get key config' = Dict.get key config) /\
  config_get config' "launch_activity"
  = (if truthy (config_get config "recompile_app") &&
        (negb (truthy (config_get config "launch_activity")) &&
         negb (truthy (config_get config "launch_inst_test")))
     then PStr ".MainActivity"
     else config_get config "launch_activity").
Proof.
  unfold check_config. intros H.
  destruct (find _ config_names) eqn:F; [discriminate|].
  pose proof (find_missing_none _ F "launch_activity") as P.
  cbv zeta in H.
  destruct (truthy (config_get config "recompile_app") &&
            (negb (truthy (config_get config "launch_activity")) &&
             negb (truthy (config_get config "launch_inst_test")))) eqn:R.
  - assert (E : config' = Dict.set "launch_activity" (PStr ".MainActivity") config).
    { settle H; now injection H as <-. }
    subst config'. split; [|split].
    + unfold mem in P.
      destruct (Dict.get "launch_activity" config) as [x|] eqn:G.
      * exact (set_present _ _ _ _ G).
      * discriminate P. cbn. tauto.
    + intros key N. apply get_set_ne. congruence.
    + apply config_get_set_eq.
  - assert (E : config' = config) by (settle H; now injection H as <-).
    subst config'. repeat split.
Qed.

(** X11.  A config that lacks one of the thirteen required keys is
    refused with the message that names the first one missing, in the
    order of the list, whatever else the config holds; a config that is
    let through has all thirteen. *)
Theorem missing_key_is_reported_first (config : dict pyval) :
  (forall before key after,
     config_names = before ++ key :: after ->
     (forall k, In k before -> mem k config = true) ->
     mem key config = false ->
     check_config isdir isfile config
     = LogExit ("config [" ++ key ++ "] is missing")%string) /\
  (forall config',
     check_config isdir isfile config = Done config' ->
     forall key, In key config_names -> mem key config = true).
Proof.
  split.
  - intros before key after E B M. unfold check_config.
    assert (F : find (fun k => negb (mem k config)) config_names = Some key).
    { rewrite E. clear E.
      induction before as [|k before IH]; cbn [List.app find]; cbv beta.
      - now rewrite M.
      - rewrite (B k (or_introl eq_refl)). cbn [negb].
        apply IH. intros k' I. apply B. now right. }
    now rewrite F.
  - intros config' H. unfold check_config in H.
    destruct (find _ config_names) eqn:F; [discriminate|].
    now apply find_missing_none.
Qed.

End ConfigFacts.

(** The config of [-p com.example.app --recompile_app --profile_from_launch]:
    let through with the default activity. *)
Lemma checked_config_guarantees_witness :
  exists config',
    check_config (fun _ => true) (fun _ => true) app_config = Done config' /\
    truthy (config_get config' "app_package_name") = true /\
    truthy (config_get config' "launch_activity") = true /\
    truthy (config_get config' "launch_inst_test") = false.
Proof.
  eexists. split; [reflexivity|].
  destruct (checked_config_guarantees (fun _ => true) (fun _ => true) app_config _
              eq_refl) as (_ & _ & _ & _ & _ & _ & P).
  destruct (P eq_refl) as (A & L & _ & T). repeat split; assumption.
Defined.

Lemma check_config_fills_launch_activity_witness :
  exists config',
    check_config (fun _ => true) (fun _ => true) app_config = Done config' /\
    keys config' = keys app_config /\
    config_get config' "launch_activity" = PStr ".MainActivity".
Proof.
  eexists. split; [reflexivity|].
  destruct (check_config_fills_launch_activity (fun _ => true) (fun _ => true)
              app_config _ eq_refl) as (K & _ & L).
  split; [exact K | exact L].
Defined.

(** A config without cmd and without ndk_path: cmd is the one reported. *)
Lemma missing_key_is_reported_first_witness :
  check_config (fun _ => true) (fun _ => true)
    [("app_package_name", PStr "com.example.app"); ("native_program", PNone)]
  = LogExit "config [cmd] is missing".
Proof.
  apply (proj1 (missing_key_is_reported_first (fun _ => true) (fun _ => true) _)
           ["app_package_name"; "native_program"] "cmd"
           ["native_lib_dir"; "apk_file_path"; "recompile_app"; "launch_activity";
            "launch_inst_test"; "record_options"; "perf_data_path";
            "profile_from_launch"; "app_arch"; "ndk_path"]).
  - reflexivity.
  - intros k [<-|[<-|[]]]; reflexivity.
  - reflexivity.
Defined.

(* ===================================================================== *)
(** * The app's process and architecture: what the methods return        *)
(* ===================================================================== *)

Section AppFacts.

Variable Pid : Type.
Variable py_int : string -> option Pid.
Variable v : python.
Variables app_package_name app_program : pyval.
Variable android_version : nat.
Variable has_opened_apk_file : Pid -> bool.

Abbreviation scan :=
  (scan_ps Pid py_int v app_package_name app_program android_version
     has_opened_apk_file).
Abbreviation names :=
  (names_app Pid py_int v app_package_name app_program android_version).
Abbreviation passed :=
  (passed_over Pid py_int v app_package_name app_program android_version
     has_opened_apk_file).

Lemma scan_ps_found (lines : list string) (pid : Pid) :
  scan lines = Done (Some pid) ->
  exists before line after,
    lines = before ++ line :: after /\
    Forall passed before /\
    names line pid /\
    (8 <= android_version -> truthy app_package_name = true ->
     has_opened_apk_file pid = true).
Proof.
  induction lines as [|line rest IH]; cbn [scan_ps]; [discriminate|].
  cbv zeta.
  set (strs := split_ws v line).
  set (pname := if truthy app_package_name
                then hd "" (split ":"%char (last strs ""))
                else last strs "").
  assert (Skip : passed line ->
                 scan rest = Done (Some pid) ->
                 exists before line0 after,
                   line :: rest = before ++ line0 :: after /\
                   Forall passed before /\ names line0 pid /\
                   (8 <= android_version -> truthy app_package_name = true ->
                    has_opened_apk_file pid = true)).
  { intros P H. destruct (IH H) as (before & line0 & after & -> & F & N & A).
    exists (line :: before), line0, after.
    split; [reflexivity|]. split; [now constructor|]. now split. }
  destruct (Nat.ltb_spec (length strs) 2) as [L|L].
  { apply Skip. left. exact L. }
  destruct (str_is pname app_program) eqn:S.
  2:{ apply Skip. right. left. fold strs. unfold pname in S.
      destruct (truthy app_package_name); exact S. }
  assert (Nm : forall p,
             py_int (if (8 <=? android_version)%nat
                     then nth 0 strs "" else nth 1 strs "") = Some p ->
             names line p).
  { intros p I. unfold names_app. fold strs. split; [exact L|]. split; [|exact I].
    unfold pname in S. destruct (truthy app_package_name); exact S. }
  destruct (py_int _) as [p|] eqn:I; [|discriminate].
  destruct ((8 <=? android_version)%nat && truthy app_package_name &&
            negb (has_opened_apk_file p)) eqn:C.
  - apply andb_true_iff in C. destruct C as [C C3].
    apply andb_true_iff in C. destruct C as [C1 C2].
    apply Nat.leb_le in C1. apply negb_true_iff in C3.
    apply Skip. right. right. exists p. repeat split; auto.
    + exact (proj1 (proj2 (Nm p eq_refl))).
  - intros H. injection H as <-.
    exists [], line, rest. split; [reflexivity|]. split; [constructor|].
    split; [now apply Nm|].
    intros V A. apply Nat.leb_le in V. rewrite V, A in C. cbn in C.
    now apply negb_false_iff in C.
Qed.

(** X13.  When [_find_app_process] returns a pid, it is either what
    [pidof] printed (a native program from Android N on), or the pid
    column of the first line of [ps] that has at least two fields and whose
    last field is the program's name (for an app, up to a [:suffix]), and
    that, from Android O on for an app, has an apk file open; every earlier
    line is one the loop passes over.  A failed [pidof] or [ps] gives
    [None], never an error. *)
Theorem find_app_process_returns_named_pid (pidof ps : bool * string) :
  let found :=
    _find_app_process Pid py_int v app_package_name app_program android_version
      has_opened_apk_file pidof ps in
  (forall pid, found = Done (Some pid) ->
     (truthy app_package_name = false /\ 7 <= android_version /\
      fst pidof = true /\ py_int (snd pidof) = Some pid) \/
     (fst ps = true /\
      exists before line after,
        split LF (snd ps) = before ++ line :: after /\
        Forall passed before /\
        names line pid /\
        (8 <= android_version -> truthy app_package_name = true ->
         has_opened_apk_file pid = true))) /\
  (truthy app_package_name = false -> 7 <= android_version ->
   fst pidof = false -> found = Done None) /\
  ((truthy app_package_name = true \/ android_version < 7) ->
   fst ps = false -> found = Done None).
Proof.
  cbv zeta. unfold _find_app_process.
  destruct pidof as [r1 o1], ps as [r2 o2]. cbn [fst snd].
  split; [|split].
  - intros pid.
    destruct (negb (truthy app_package_name) && (7 <=? android_version)%nat) eqn:B.
    + apply andb_true_iff in B. destruct B as [B1 B2].
      apply negb_true_iff in B1. apply Nat.leb_le in B2.
      destruct r1; [|discriminate].
      destruct (py_int o1) as [p|] eqn:I; [|discriminate].
      intros H. injection H as <-. left. auto.
    + destruct r2; cbn [negb]; [|discriminate].
      intros H. right. split; [reflexivity|]. now apply scan_ps_found.
  - intros A V R. subst r1. rewrite A. cbn [negb andb].
    apply Nat.leb_le in V. now rewrite V.
  - intros C R. subst r2.
    destruct (negb (truthy app_package_name) && (7 <=? android_version)%nat) eqn:B;
      [|reflexivity].
    apply andb_true_iff in B. destruct B as [B1 B2].
    apply negb_true_iff in B1. apply Nat.leb_le in B2.
    destruct C as [C|C]; [congruence | lia].
Qed.

(** X12.  [_get_app_environment] keeps an architecture that the config
    gives.  Otherwise it picks one that [NativeLibDownloader] downloads
    libraries for: on the four known device architectures the one picked is
    among [_get_need_archs(device_arch)], and it is the device's own
    unless the device is 64-bit and the app's maps show no linker64.
    Without a cmd the method ends normally only with a pid. *)
Theorem app_arch_is_a_needed_arch (cmd app_arch app_prog : pyval)
    (device_arch : string) (app_pid : option Pid)
    (found : checked (option Pid)) (cat_maps : Pid -> checked string)
    (pid' : option Pid) (arch' : pyval) :
  _get_app_environment cmd app_arch app_prog device_arch app_pid found cat_maps
  = Done (pid', arch') ->
  (truthy app_arch = true -> arch' = app_arch) /\
  (truthy app_arch = false ->
   exists a, arch' = PStr a /\
     (In device_arch ["arm"; "arm64"; "x86"; "x86_64"] ->
      In a (_get_need_archs device_arch)) /\
     (a = device_arch \/
      truthy cmd = false /\
      exists pid output, pid' = Some pid /\ cat_maps pid = Done output /\
        contains_str "linker64" output = false /\
        (device_arch = "arm64" /\ a = "arm" \/
         device_arch = "x86_64" /\ a = "x86"))) /\
  (truthy cmd = false -> pid' <> None) /\
  (truthy cmd = true -> pid' = app_pid).
Proof.
  unfold _get_app_environment. intros H.
  assert (Known : In device_arch ["arm"; "arm64"; "x86"; "x86_64"] ->
                  In device_arch (_get_need_archs device_arch)).
  { intros [<-|[<-|[<-|[<-|[]]]]]; cbn; auto. }
  destruct (truthy cmd) eqn:C; cbn [negb andb] in H.
  - (* a cmd: no process is looked for *)
    destruct (truthy app_arch) eqn:A; cbn [negb] in H; injection H as <- <-.
    + repeat split; try discriminate; auto.
    + repeat split; try discriminate; auto.
      intros _. exists device_arch. repeat split; auto.
  - assert (Loc : exists p,
               (if truthy app_arch then Done (Some p, app_arch)
                else if str_in device_arch ["arm64"; "x86_64"]
                     then match cat_maps p with
                          | LogExit msg => LogExit msg
                          | Raise exc => Raise exc
                          | Done output =>
                              Done (Some p,
                                    PStr (if contains_str "linker64" output
                                          then device_arch
                                          else if String.eqb device_arch "arm64"
                                               then "arm" else "x86"))
                          end
                     else Done (Some p, PStr device_arch))
               = Done (pid', arch')).
    { destruct app_pid as [p|].
      - exists p. destruct (truthy app_arch); exact H.
      - destruct found as [m|e|[p|]]; try discriminate.
        exists p. destruct (truthy app_arch); exact H. }
    clear H. destruct Loc as [p H].
    destruct (truthy app_arch) eqn:A.
    + injection H as <- <-. repeat split; try discriminate; auto.
    + destruct (str_in device_arch ["arm64"; "x86_64"]) eqn:D.
      * destruct (cat_maps p) as [m|e|output] eqn:M; try discriminate.
        injection H as <- <-.
        apply ScanFacts.str_in_In in D.
        repeat split; try discriminate; auto.
        intros _. eexists. split; [reflexivity|].
        destruct (contains_str "linker64" output) eqn:L.
        -- split; [exact Known | now left].
        -- destruct D as [<-|[<-|[]]]; cbn [String.eqb Ascii.eqb Bool.eqb].
           ++ split; [intros _; cbn; auto|].
              right. split; [reflexivity|]. exists p, output.
              split; [reflexivity|]. split; [exact M|]. split; [exact L|].
              left. now split.
           ++ split; [intros _; cbn; auto|].
              right. split; [reflexivity|]. exists p, output.
              split; [reflexivity|]. split; [exact M|]. split; [exact L|].
              right. now split.
      * injection H as <- <-. repeat split; try discriminate; auto.
        intros _. exists device_arch. repeat split; auto.
Qed.

End AppFacts.

(** On Android N the process of the app is found in the third line. *)
Lemma find_app_process_returns_named_pid_witness :
  _find_app_process Z (py3_int 4300) Py3 (PStr "com.example.app")
    (PStr "com.example.app") 7 (fun _ => true) (false, "") (true, ps_output)
  = Done (Some 1234%Z) /\
  exists before line after,
    split LF ps_output = before ++ line :: after /\
    names_app Z (py3_int 4300) Py3 (PStr "com.example.app")
      (PStr "com.example.app") 7 line 1234%Z.
Proof.
  split; [vm_compute; reflexivity|].
  destruct (proj1 (find_app_process_returns_named_pid Z (py3_int 4300) Py3
                     (PStr "com.example.app") (PStr "com.example.app") 7
                     (fun _ => true) (false, "") (true, ps_output))
              1234%Z ltac:(vm_compute; reflexivity))
    as [(A & _)|(_ & before & line & after & E & _ & N & _)].
  - discriminate A.
  - now exists before, line, after.
Defined.

(** A 64-bit device, an app whose maps show no linker64: arm is picked. *)
Lemma app_arch_is_a_needed_arch_witness :
  exists a,
    _get_app_environment PNone PNone (PStr "com.example.app") "arm64"
      (Some 1234) (Done None) (fun _ : nat => Done "/system/bin/linker")
    = Done (Some 1234, PStr a) /\
    In a (_get_need_archs "arm64").
Proof.
  destruct (app_arch_is_a_needed_arch nat PNone PNone (PStr "com.example.app")
              "arm64" (Some 1234) (Done None)
              (fun _ : nat => Done "/system/bin/linker") _ _ eq_refl)
    as (_ & P & _).
  destruct (P eq_refl) as (a & E & N & _).
  exists a. injection E as <-. split; [reflexivity|].
  apply N. cbn. auto.
Defined.
